(** * Job-posting endpoints: a shallow embedding of [app/api/endpoints/jobs.py]

    The handlers of the module are embedded as computations in a small
    state-and-exception monad over the request's database session and the
    record of calls made to the text-generation API.  Collaborators that
    live outside the module (the ORM session, [json.loads], the OpenAI
    client, the clock) are modelled next to the handlers that use them. *)

From Stdlib Require Import List String Ascii ZArith NArith Bool Lia DecimalString.
Import ListNotations.

Local Open Scope list_scope.
Local Open Scope string_scope.

(** ** Python values *)

(** The values [json.loads] produces, which are also the values an ORM
    attribute can be assigned.  A float keeps the text it was read from. *)
#[local] Unset Elimination Schemes.
Inductive pyobj : Type :=
| PyNone
| PyBool (b : bool)
| PyInt (n : Z)
| PyFloat (lexeme : string)
| PyStr (s : string)
| PyList (xs : list pyobj)
| PyDict (items : list (string * pyobj)).
#[local] Set Elimination Schemes.

(** [type(o).__name__] *)
Definition type_name (o : pyobj) : string :=
  match o with
  | PyNone => "NoneType"
  | PyBool _ => "bool"
  | PyInt _ => "int"
  | PyFloat _ => "float"
  | PyStr _ => "str"
  | PyList _ => "list"
  | PyDict _ => "dict"
  end.

(** [str(n)] for an int. *)
Definition str_int (n : Z) : string := NilZero.string_of_int (Z.to_int n).

(** How an f-string renders an attribute that holds a [str] or [None]. *)
Definition format_str (v : option string) : string :=
  match v with
  | Some s => s
  | None => "None"
  end.

Definition py_of_str (v : option string) : pyobj :=
  match v with
  | Some s => PyStr s
  | None => PyNone
  end.

(** The double-quote character and the one-character string holding it. *)
Definition dquote : ascii := "034"%char.
Definition dq : string := String dquote EmptyString.

(** ** Exceptions *)

(** [HTTPException] is told apart from every other exception, of which the
    class name and [str(e)] are kept. *)
Inductive exn : Type :=
| HTTPException (status_code : Z) (detail : string)
| Error (cls : string) (msg : string).

(** [str(e)] *)
Definition str_exn (e : exn) : string :=
  match e with
  | HTTPException status detail => str_int status ++ ": " ++ detail
  | Error _ msg => msg
  end.

(** [dict.get(key)] on the items of a dict; [dict_set] is item assignment,
    which keeps the position of a key already present. *)
Fixpoint dict_get (key : string) (items : list (string * pyobj)) : option pyobj :=
  match items with
  | [] => None
  | (k, v) :: rest => if String.eqb k key then Some v else dict_get key rest
  end.

Fixpoint dict_set (key : string) (v : pyobj) (items : list (string * pyobj))
  : list (string * pyobj) :=
  match items with
  | [] => [(key, v)]
  | (k, v') :: rest =>
      if String.eqb k key then (k, v) :: rest else (k, v') :: dict_set key v rest
  end.

(** ** [json.loads] *)

Module Json.

Definition decode_error (msg : string) : exn := Error "JSONDecodeError" msg.

Definition is_ws (c : ascii) : bool :=
  match c with
  | " "%char | "009"%char | "010"%char | "013"%char => true
  | _ => false
  end.

Fixpoint skip_ws (s : string) : string :=
  match s with
  | String c rest => if is_ws c then skip_ws rest else s
  | EmptyString => s
  end.

Definition is_digit (c : ascii) : bool :=
  let n := N_of_ascii c in (48 <=? n)%N && (n <=? 57)%N.

Definition hex_value (c : ascii) : option N :=
  let n := N_of_ascii c in
  if (48 <=? n)%N && (n <=? 57)%N then Some (n - 48)%N
  else if (65 <=? n)%N && (n <=? 70)%N then Some (n - 55)%N
  else if (97 <=? n)%N && (n <=? 102)%N then Some (n - 87)%N
  else None.

(** A decoded string is a run of code units: bytes copied from the text
    and 16-bit units written as a backslash-u escape. *)
Inductive unit16 : Type :=
| Raw (c : ascii)
| Esc (u : N).

Definition hex4 (a b c d : ascii) : option N :=
  match hex_value a, hex_value b, hex_value c, hex_value d with
  | Some x, Some y, Some z, Some w => Some (((x * 16 + y) * 16 + z) * 16 + w)%N
  | _, _, _, _ => None
  end.

(** Scans the body of a string literal up to its closing quote. *)
Fixpoint scan_string (s : string) : exn + (list unit16 * string) :=
  match s with
  | EmptyString => inl (decode_error "Unterminated string starting at")
  | String c rest =>
      if Ascii.eqb c dquote then inr ([], rest)
      else if Ascii.eqb c "\"%char then
        match rest with
        | String e rest' =>
            let simple (x : ascii) :=
              match scan_string rest' with
              | inr (us, r) => inr (Raw x :: us, r)
              | inl err => inl err
              end in
            if Ascii.eqb e dquote then simple dquote
            else if Ascii.eqb e "\"%char then simple "\"%char
            else if Ascii.eqb e "/"%char then simple "/"%char
            else if Ascii.eqb e "b"%char then simple "008"%char
            else if Ascii.eqb e "f"%char then simple "012"%char
            else if Ascii.eqb e "n"%char then simple "010"%char
            else if Ascii.eqb e "r"%char then simple "013"%char
            else if Ascii.eqb e "t"%char then simple "009"%char
            else if Ascii.eqb e "u"%char then
              match rest' with
              | String h1 (String h2 (String h3 (String h4 rest''))) =>
                  match hex4 h1 h2 h3 h4 with
                  | Some u =>
                      match scan_string rest'' with
                      | inr (us, r) => inr (Esc u :: us, r)
                      | inl err => inl err
                      end
                  | None => inl (decode_error "Invalid \uXXXX escape")
                  end
              | _ => inl (decode_error "Invalid \uXXXX escape")
              end
            else inl (decode_error "Invalid \escape")
        | EmptyString => inl (decode_error "Unterminated string starting at")
        end
      else if (N_of_ascii c <? 32)%N then
        inl (decode_error "Invalid control character at")
      else
        match scan_string rest with
        | inr (us, r) => inr (Raw c :: us, r)
        | inl err => inl err
        end
  end.

(** UTF-8 bytes of a code point. *)
Definition utf8 (n : N) : string :=
  let byte (k : N) := ascii_of_N k in
  let cont (k : N) := ascii_of_N (128 + k mod 64)%N in
  if (n <? 128)%N then String (byte n) EmptyString
  else if (n <? 2048)%N then
    String (byte (192 + n / 64)%N) (String (cont n) EmptyString)
  else if (n <? 65536)%N then
    String (byte (224 + n / 4096)%N)
      (String (cont (n / 64)%N) (String (cont n) EmptyString))
  else
    String (byte (240 + n / 262144)%N)
      (String (cont (n / 4096)%N)
         (String (cont (n / 64)%N) (String (cont n) EmptyString))).

(** Joins a high surrogate with the low surrogate that follows it and
    encodes every escape. *)
Fixpoint encode (us : list unit16) : string :=
  match us with
  | [] => EmptyString
  | Raw c :: rest => String c (encode rest)
  | Esc hi :: rest =>
      match rest with
      | Esc lo :: rest' =>
          if ((55296 <=? hi) && (hi <? 56320) && (56320 <=? lo) && (lo <? 57344))%N
          then utf8 (65536 + (hi - 55296) * 1024 + (lo - 56320))%N ++ encode rest'
          else utf8 hi ++ encode rest
      | _ => utf8 hi ++ encode rest
      end
  end.

Definition parse_string (s : string) : exn + (string * string) :=
  match scan_string s with
  | inr (us, rest) => inr (encode us, rest)
  | inl err => inl err
  end.

(** The longest prefix of digits and what follows it. *)
Fixpoint span_digits (s : string) : string * string :=
  match s with
  | String c rest =>
      if is_digit c
      then let (ds, r) := span_digits rest in (String c ds, r)
      else (EmptyString, s)
  | EmptyString => (EmptyString, s)
  end.

Fixpoint digits_value (s : string) (acc : Z) : Z :=
  match s with
  | String c rest => digits_value rest (acc * 10 + Z.of_N (N_of_ascii c - 48))%Z
  | EmptyString => acc
  end.

(** The integer part [0|[1-9][0-9]*] of a number. *)
Definition span_int (s : string) : option (string * string) :=
  match s with
  | String c rest =>
      if Ascii.eqb c "0"%char then Some ("0", rest)
      else if is_digit c then Some (span_digits s)
      else None
  | EmptyString => None
  end.

(** The optional fraction [.[0-9]+] and exponent [[eE][-+]?[0-9]+]. *)
Definition span_frac (s : string) : string * string :=
  match s with
  | String "."%char rest =>
      match span_digits rest with
      | (EmptyString, _) => (EmptyString, s)
      | (ds, r) => (String "."%char ds, r)
      end
  | _ => (EmptyString, s)
  end.

Definition span_exp (s : string) : string * string :=
  match s with
  | String e rest =>
      if Ascii.eqb e "e"%char || Ascii.eqb e "E"%char then
        let (sign, rest') :=
          match rest with
          | String "+"%char r => ("+", r)
          | String "-"%char r => ("-", r)
          | _ => (EmptyString, rest)
          end in
        match span_digits rest' with
        | (EmptyString, _) => (EmptyString, s)
        | (ds, r) => (String e (sign ++ ds), r)
        end
      else (EmptyString, s)
  | EmptyString => (EmptyString, s)
  end.

Definition parse_number (s : string) : option (pyobj * string) :=
  let (neg, body) :=
    match s with
    | String "-"%char r => (true, r)
    | _ => (false, s)
    end in
  match span_int body with
  | None => None
  | Some (int_part, r1) =>
      let (frac, r2) := span_frac r1 in
      let (exp, r3) := span_exp r2 in
      match frac, exp with
      | EmptyString, EmptyString =>
          let v := digits_value int_part 0 in
          Some (PyInt (if neg then - v else v)%Z, r3)
      | _, _ =>
          Some (PyFloat ((if neg then "-" else EmptyString) ++ int_part ++ frac ++ exp), r3)
      end
  end.

(** [strip_prefix p s] is what follows [p] in [s]. *)
Fixpoint strip_prefix (p s : string) : option string :=
  match p, s with
  | EmptyString, _ => Some s
  | String a p', String b s' => if Ascii.eqb a b then strip_prefix p' s' else None
  | String _ _, EmptyString => None
  end.

Definition parse_constant (s : string) : option (pyobj * string) :=
  match strip_prefix "null" s with
  | Some r => Some (PyNone, r)
  | None =>
  match strip_prefix "true" s with
  | Some r => Some (PyBool true, r)
  | None =>
  match strip_prefix "false" s with
  | Some r => Some (PyBool false, r)
  | None =>
  match strip_prefix "NaN" s with
  | Some r => Some (PyFloat "nan", r)
  | None =>
  match strip_prefix "Infinity" s with
  | Some r => Some (PyFloat "inf", r)
  | None =>
  match strip_prefix "-Infinity" s with
  | Some r => Some (PyFloat "-inf", r)
  | None => None
  end end end end end end.

Definition expecting_value : exn := decode_error "Expecting value".

(** The scanner.  [depth] bounds the nesting and the number of members it
    goes through; [loads] starts it above the length of the text. *)
Fixpoint parse_value (depth : nat) (s : string) : exn + (pyobj * string) :=
  match depth with
  | O => inl (Error "RecursionError" "maximum recursion depth exceeded")
  | S depth' =>
      match s with
      | EmptyString => inl expecting_value
      | String c rest =>
          if Ascii.eqb c dquote then
            match parse_string rest with
            | inr (str, r) => inr (PyStr str, r)
            | inl err => inl err
            end
          else if Ascii.eqb c "{"%char then
            match skip_ws rest with
            | String "}"%char r => inr (PyDict [], r)
            | rest' => parse_members depth' rest' []
            end
          else if Ascii.eqb c "["%char then
            match skip_ws rest with
            | String "]"%char r => inr (PyList [], r)
            | rest' => parse_elements depth' rest' []
            end
          else
            match parse_constant s with
            | Some res => inr res
            | None =>
                match parse_number s with
                | Some res => inr res
                | None => inl expecting_value
                end
            end
      end
  end

with parse_members (depth : nat) (s : string) (acc : list (string * pyobj))
  : exn + (pyobj * string) :=
  match depth with
  | O => inl (Error "RecursionError" "maximum recursion depth exceeded")
  | S depth' =>
      match s with
      | String c rest =>
          if Ascii.eqb c dquote then
            match parse_string rest with
            | inl err => inl err
            | inr (key, r) =>
                match skip_ws r with
                | String ":"%char r' =>
                    match parse_value depth' (skip_ws r') with
                    | inl err => inl err
                    | inr (v, r'') =>
                        let acc' := dict_set key v acc in
                        match skip_ws r'' with
                        | String "}"%char r3 => inr (PyDict acc', r3)
                        | String ","%char r3 => parse_members depth' (skip_ws r3) acc'
                        | _ => inl (decode_error "Expecting ',' delimiter")
                        end
                    end
                | _ => inl (decode_error "Expecting ':' delimiter")
                end
            end
          else inl (decode_error "Expecting property name enclosed in double quotes")
      | EmptyString =>
          inl (decode_error "Expecting property name enclosed in double quotes")
      end
  end

with parse_elements (depth : nat) (s : string) (acc : list pyobj)
  : exn + (pyobj * string) :=
  match depth with
  | O => inl (Error "RecursionError" "maximum recursion depth exceeded")
  | S depth' =>
      match parse_value depth' s with
      | inl err => inl err
      | inr (v, r) =>
          let acc' := (acc ++ [v])%list in
          match skip_ws r with
          | String "]"%char r' => inr (PyList acc', r')
          | String ","%char r' => parse_elements depth' (skip_ws r') acc'
          | _ => inl (decode_error "Expecting ',' delimiter")
          end
      end
  end.

(** [json.loads(s)]: one value, surrounded by optional white space.  The
    position that Python appends to the message of a [JSONDecodeError] is
    left out. *)
Definition loads (s : string) : exn + pyobj :=
  match parse_value (S (String.length s)) (skip_ws s) with
  | inl err => inl err
  | inr (v, rest) =>
      match skip_ws rest with
      | EmptyString => inr v
      | _ => inl (decode_error "Extra data")
      end
  end.

End Json.

(** ** Entities and request/response shapes *)

(** Modelled from the spec: [models.models] is not part of the reviewed
    unit.  A company has at least an id, a name and an industry. *)
Module Company.
Record t : Type := { id : Z; name : option string; industry : option string }.
End Company.

(** Modelled from the spec: [models.models] is not part of the reviewed
    unit.  A job posting has an id, a title, a description (initially
    null) and the foreign key [company_id].  An attribute holds whatever
    the handlers assign to it: [None] or a validated request value, and for
    [description] also any value decoded from the generated JSON. *)
Module JobPostingModel.
Record t : Type :=
  { id : Z; title : option string; description : pyobj; company_id : option Z }.
End JobPostingModel.

(** One (field, value) item of a [model_dump()] dict, which is also one
    [setattr(db_job, field, value)] call. *)
Inductive attr : Type :=
| attr_title (value : option string)
| attr_description (value : pyobj)
| attr_company_id (value : option Z).

Definition setattr (o : JobPostingModel.t) (a : attr) : JobPostingModel.t :=
  match a with
  | attr_title v =>
      {| JobPostingModel.id := JobPostingModel.id o;
         JobPostingModel.title := v;
         JobPostingModel.description := JobPostingModel.description o;
         JobPostingModel.company_id := JobPostingModel.company_id o |}
  | attr_description v =>
      {| JobPostingModel.id := JobPostingModel.id o;
         JobPostingModel.title := JobPostingModel.title o;
         JobPostingModel.description := v;
         JobPostingModel.company_id := JobPostingModel.company_id o |}
  | attr_company_id v =>
      {| JobPostingModel.id := JobPostingModel.id o;
         JobPostingModel.title := JobPostingModel.title o;
         JobPostingModel.description := JobPostingModel.description o;
         JobPostingModel.company_id := v |}
  end.

(** Modelled from the spec: [schemas.schemas] is not part of the reviewed
    unit.  [JobPostingCreate] carries the required fields of a new posting
    and an optional description. *)
Module JobPostingCreate.
Record t : Type :=
  { title : string; description : option string; company_id : Z }.

Definition model_dump (job : t) : list attr :=
  [ attr_title (Some (title job));
    attr_description (py_of_str (description job));
    attr_company_id (Some (company_id job)) ].
End JobPostingCreate.

(** A field of a partial-update body: left out of the body, or set in it
    (possibly to null). *)
Inductive field (A : Type) : Type :=
| Unset
| Provided (value : option A).
Arguments Unset {A}.
Arguments Provided {A} value.

(** Reading the attribute: a field left out reads as its default, [None]. *)
Definition field_value {A : Type} (f : field A) : option A :=
  match f with
  | Unset => None
  | Provided v => v
  end.

(** Modelled from the spec: [schemas.schemas] is not part of the reviewed
    unit.  Every field of [JobPostingUpdate] is optional. *)
Module JobPostingUpdate.
Record t : Type :=
  { title : field string; description : field string; company_id : field Z }.

(** [model_dump(exclude_unset=True)]: only the fields set in the body. *)
Definition model_dump_exclude_unset (job : t) : list attr :=
  (match title job with
   | Unset => []
   | Provided v => [attr_title v]
   end ++
   match description job with
   | Unset => []
   | Provided v => [attr_description (py_of_str v)]
   end ++
   match company_id job with
   | Unset => []
   | Provided v => [attr_company_id v]
   end)%list.
End JobPostingUpdate.

Module JobDescriptionRequest.
Record t : Type := { required_tools : list string }.
End JobDescriptionRequest.

Module JobDescriptionResponse.
Record t : Type := { job_id : Z; description : string; generated_at : Z }.
End JobDescriptionResponse.

(** ** The text-generation API *)

(** The keyword arguments of [chat.completions.create]. *)
Record ChatRequest : Type :=
  { model : string;
    messages : list (list (string * string));
    functions : list pyobj;
    function_call : pyobj;
    stream : bool }.

(** A streamed chunk, down to [choices[0].delta.function_call.arguments]. *)
Record FunctionCall : Type := { arguments : option string }.
Record Delta : Type := { delta_function_call : option FunctionCall }.
Record Choice : Type := { delta : Delta }.
Record Chunk : Type := { choices : list Choice }.

(** Iterating a stream yields its chunks in order and then either ends or
    raises. *)
Record Stream : Type := { chunks : list Chunk; broken : option exn }.

(** ** The request's world *)

(** Modelled from the spec: the persistence layer is an external
    collaborator.  A table keeps its rows in stored order, and [next_id] is
    the primary key the database gives to the next posting. *)
Record Store : Type :=
  { companies : list Company.t;
    job_postings : list JobPostingModel.t;
    next_id : Z }.

(** What a request meets outside the module: the answer of the generation
    API to a call, whether the database refuses the commit, and the clock. *)
Record Env : Type :=
  { openai_create : ChatRequest -> exn + Stream;
    commit_error : option exn;
    utcnow : Z }.

(** [persisted] is the database; [session] is the request's view of it,
    with the changes not yet committed; [api_calls] lists the calls made to
    the generation API, oldest first; [logged] the lines sent to the logger. *)
Record World : Type :=
  { persisted : Store;
    session : Store;
    api_calls : list ChatRequest;
    logged : list string }.

Definition M (A : Type) : Type := World -> (exn + A) * World.

Definition ret {A : Type} (a : A) : M A := fun w => (inr a, w).

Definition raise {A : Type} (e : exn) : M A := fun w => (inl e, w).

Definition bind {A B : Type} (m : M A) (k : A -> M B) : M B :=
  fun w =>
    match m w with
    | (inr a, w') => k a w'
    | (inl e, w') => (inl e, w')
    end.

(** [try: body except Exception as e: handler] *)
Definition try_except {A : Type} (body : M A) (handler : exn -> M A) : M A :=
  fun w =>
    match body w with
    | (inr a, w') => (inr a, w')
    | (inl e, w') => handler e w'
    end.

(** A step that returns or raises without touching the world. *)
Definition lift {A : Type} (r : exn + A) : M A := fun w => (r, w).

Declare Scope monad_scope.
Delimit Scope monad_scope with monad.
Notation "x <- m ;; k" := (bind m (fun x => k))
  (at level 61, m at next level, right associativity) : monad_scope.
Notation "m ;; k" := (bind m (fun _ => k))
  (at level 61, right associativity) : monad_scope.
Local Open Scope monad_scope.

Definition with_session (f : Store -> Store) : M unit :=
  fun w =>
    (inr tt,
     {| persisted := persisted w;
        session := f (session w);
        api_calls := api_calls w;
        logged := logged w |}).

(** ** The data-access layer *)

(** [db.query(Company).filter(Company.id == company_id).first()] *)
Definition query_company (company_id : Z) : M (option Company.t) :=
  fun w =>
    (inr (find (fun c => Z.eqb (Company.id c) company_id) (companies (session w))), w).

(** [db.query(JobPostingModel).filter(JobPostingModel.id == job_id).first()] *)
Definition query_job (job_id : Z) : M (option JobPostingModel.t) :=
  fun w =>
    (inr (find (fun j => Z.eqb (JobPostingModel.id j) job_id)
            (job_postings (session w))), w).

(** [db.query(JobPostingModel).offset(skip).limit(limit).all()]: the rows
    in stored order.  What a negative offset or limit does is up to the
    database engine; here it counts as 0. *)
Definition query_jobs (skip limit : Z) : M (list JobPostingModel.t) :=
  fun w =>
    (inr (firstn (Z.to_nat limit) (skipn (Z.to_nat skip) (job_postings (session w)))), w).

(** The [company] relationship of a posting: the row its foreign key
    points at, if any. *)
Definition related_company (job : JobPostingModel.t) : M (option Company.t) :=
  match JobPostingModel.company_id job with
  | Some cid => query_company cid
  | None => ret None
  end.

(** The object [JobPostingModel] builds from keyword arguments, once the
    database has given it [id]. *)
Definition new_job (kwargs : list attr) (id : Z) : JobPostingModel.t :=
  fold_left setattr kwargs
    {| JobPostingModel.id := id;
       JobPostingModel.title := None;
       JobPostingModel.description := PyNone;
       JobPostingModel.company_id := None |}.

(** [db.add] of a new [JobPostingModel] built from [kwargs]: the new row
    goes last and takes the next primary key. *)
Definition db_add (kwargs : list attr) : M JobPostingModel.t :=
  fun w =>
    let s := session w in
    let db_job := new_job kwargs (next_id s) in
    (inr db_job,
     {| persisted := persisted w;
        session := {| companies := companies s;
                      job_postings := (job_postings s ++ [db_job])%list;
                      next_id := (next_id s + 1)%Z |};
        api_calls := api_calls w;
        logged := logged w |}).

(** [setattr(db_job, field, value)] on an object loaded in the session:
    the object changes, and so does the column of the row with the
    object's primary key, once flushed. *)
Definition db_setattr (db_job : JobPostingModel.t) (a : attr) : M JobPostingModel.t :=
  fun w =>
    let s := session w in
    (inr (setattr db_job a),
     {| persisted := persisted w;
        session :=
          {| companies := companies s;
             job_postings :=
               map (fun j => if Z.eqb (JobPostingModel.id j) (JobPostingModel.id db_job)
                             then setattr j a else j) (job_postings s);
             next_id := next_id s |};
        api_calls := api_calls w;
        logged := logged w |}).

(** [for field, value in items: setattr(db_job, field, value)] *)
Fixpoint for_items (items : list attr) (db_job : JobPostingModel.t)
  : M JobPostingModel.t :=
  match items with
  | [] => ret db_job
  | a :: rest =>
      db_job' <- db_setattr db_job a ;;
      for_items rest db_job'
  end.

(** [db.delete(db_job)]: the row with the object's primary key goes. *)
Definition db_delete (db_job : JobPostingModel.t) : M unit :=
  with_session (fun s =>
    {| companies := companies s;
       job_postings :=
         filter (fun j => negb (Z.eqb (JobPostingModel.id j) (JobPostingModel.id db_job)))
           (job_postings s);
       next_id := next_id s |}).

(** [o.get(key, default)]: only a dict has the method. *)
Definition py_get (o : pyobj) (key : string) (default : pyobj) : exn + pyobj :=
  match o with
  | PyDict items =>
      inr (match dict_get key items with
           | Some v => v
           | None => default
           end)
  | _ =>
      inl (Error "AttributeError"
             ("'" ++ type_name o ++ "' object has no attribute 'get'"))
  end.

(** Modelled from the spec: [schemas.schemas] is not part of the reviewed
    unit.  A [JobDescriptionResponse] holds the job id, the generated
    description text and the generation timestamp; building one from a
    description that is not text is a validation error. *)
Definition new_response (job_id : Z) (description : pyobj) (generated_at : Z)
  : exn + JobDescriptionResponse.t :=
  match description with
  | PyStr text =>
      inr {| JobDescriptionResponse.job_id := job_id;
             JobDescriptionResponse.description := text;
             JobDescriptionResponse.generated_at := generated_at |}
  | _ =>
      inl (Error "ValidationError"
             "1 validation error for JobDescriptionResponse")
  end.

(** The body of the loop over the stream, for one chunk. *)
Definition add_chunk (full_description : string) (chunk : Chunk) : exn + string :=
  match choices chunk with
  | [] => inl (Error "IndexError" "list index out of range")
  | choice :: _ =>
      match delta_function_call (delta choice) with
      | Some call =>
          match arguments call with
          | Some (String c rest) =>
              (* Parse the arguments (comes as JSON chunks) *)
              let args_chunk := String c rest in
              inr (full_description ++ args_chunk)
          | Some EmptyString | None => inr full_description
          end
      | None => inr full_description
      end
  end.

Fixpoint for_chunks (cs : list Chunk) (full_description : string) : exn + string :=
  match cs with
  | [] => inr full_description
  | chunk :: rest =>
      match add_chunk full_description chunk with
      | inr full_description' => for_chunks rest full_description'
      | inl e => inl e
      end
  end.

(** Collect the streamed response. *)
Definition collect (response : Stream) : exn + string :=
  match for_chunks (chunks response) EmptyString with
  | inr full_description =>
      match broken response with
      | None => inr full_description
      | Some e => inl e
      end
  | inl e => inl e
  end.

(** The prompt for OpenAI. *)
Definition build_prompt (job : JobPostingModel.t) (company : Company.t)
  (request : JobDescriptionRequest.t) : string :=
  let tools := String.concat ", " (JobDescriptionRequest.required_tools request) in
  "Generate a professional job description for the position '"
    ++ format_str (JobPostingModel.title job) ++ "' at "
    ++ format_str (Company.name company) ++ ", "
    ++ "a company in the " ++ format_str (Company.industry company) ++ " industry"
    ++ "The role requires expertise in the following tools: " ++ tools ++ ". "
    ++ "Structure the response as a single paragraph.".

(** The function for OpenAI function calling. *)
Definition functions_spec : list pyobj :=
  [ PyDict
      [ ("name", PyStr "generate_job_description");
        ("description", PyStr "Generate a job description based on provided details.");
        ("parameters",
          PyDict
            [ ("type", PyStr "object");
              ("properties",
                PyDict
                  [ ("description",
                      PyDict
                        [ ("type", PyStr "string");
                          ("description", PyStr "The generated job description.") ]) ]);
              ("required", PyList [PyStr "description"]) ]) ] ].

Definition chat_request (prompt : string) : ChatRequest :=
  {| model := "gpt-4o-mini";
     messages :=
       [ [ ("role", "system");
           ("content",
             "You are a professional HR assistant specializing in writing job descriptions.") ];
         [ ("role", "user"); ("content", prompt) ] ];
     functions := functions_spec;
     function_call := PyDict [("name", PyStr "generate_job_description")];
     stream := true |}.

Section Handlers.

Variable env : Env.

(** [db.commit()]: the session's changes become the database, unless the
    database refuses them. *)
Definition db_commit : M unit :=
  fun w =>
    match commit_error env with
    | Some e => (inl e, w)
    | None =>
        (inr tt,
         {| persisted := session w;
            session := session w;
            api_calls := api_calls w;
            logged := logged w |})
    end.

(** [db.refresh(db_job)]: the object is read again from its row. *)
Definition db_refresh (db_job : JobPostingModel.t) : M JobPostingModel.t :=
  fun w =>
    match find (fun j => Z.eqb (JobPostingModel.id j) (JobPostingModel.id db_job))
            (job_postings (persisted w)) with
    | Some row => (inr row, w)
    | None =>
        (inl (Error "InvalidRequestError" "Could not refresh instance"), w)
    end.

(** *** Job CRUD endpoints *)

Definition create_job_posting (job : JobPostingCreate.t) : M JobPostingModel.t :=
  (* Verify company exists *)
  company <- query_company (JobPostingCreate.company_id job) ;;
  match company with
  | None => raise (HTTPException 404 "Company not found")
  | Some _ =>
      db_job <- db_add (JobPostingCreate.model_dump job) ;;
      db_commit ;;
      db_refresh db_job
  end.

Definition read_job_postings (skip limit : option Z) : M (list JobPostingModel.t) :=
  let skip := match skip with Some n => n | None => 0%Z end in
  let limit := match limit with Some n => n | None => 100%Z end in
  jobs <- query_jobs skip limit ;;
  ret jobs.

Definition read_job_posting (job_id : Z) : M JobPostingModel.t :=
  db_job <- query_job job_id ;;
  match db_job with
  | None => raise (HTTPException 404 "Job posting not found")
  | Some db_job => ret db_job
  end.

Definition update_job_posting (job_id : Z) (job : JobPostingUpdate.t)
  : M JobPostingModel.t :=
  db_job <- query_job job_id ;;
  match db_job with
  | None => raise (HTTPException 404 "Job posting not found")
  | Some db_job =>
      (* If company_id is being updated, verify the new company exists *)
      match field_value (JobPostingUpdate.company_id job) with
      | Some cid =>
          company <- query_company cid ;;
          match company with
          | None => raise (HTTPException 404 "Company not found")
          | Some _ => ret tt
          end
      | None => ret tt
      end ;;
      let update_data := JobPostingUpdate.model_dump_exclude_unset job in
      db_job <- for_items update_data db_job ;;
      db_commit ;;
      db_refresh db_job
  end.

Definition delete_job_posting (job_id : Z) : M (list (string * string)) :=
  db_job <- query_job job_id ;;
  match db_job with
  | None => raise (HTTPException 404 "Job posting not found")
  | Some db_job =>
      db_delete db_job ;;
      db_commit ;;
      ret [("message", "Job posting deleted successfully")]
  end.

(** *** Job description generation *)

(** [openai_client.chat.completions.create(...)]: the call is recorded,
    then answered by the API. *)
Definition chat_completions_create (req : ChatRequest) : M Stream :=
  fun w =>
    (openai_create env req,
     {| persisted := persisted w;
        session := session w;
        api_calls := (api_calls w ++ [req])%list;
        logged := logged w |}).

Definition logger_error (line : string) : M unit :=
  fun w =>
    (inr tt,
     {| persisted := persisted w;
        session := session w;
        api_calls := api_calls w;
        logged := (logged w ++ [line])%list |}).

Definition datetime_utcnow : M Z := fun w => (inr (utcnow env), w).

Definition generate_job_description (id : Z) (request : JobDescriptionRequest.t)
  : M JobDescriptionResponse.t :=
  (* Retrieve the job posting and associated company *)
  job <- query_job id ;;
  match job with
  | None => raise (HTTPException 404 "Job posting not found")
  | Some job =>
      company <- related_company job ;;
      match company with
      | None => raise (HTTPException 404 "Associated company not found")
      | Some company =>
          let prompt := build_prompt job company request in
          try_except
            (response <- chat_completions_create (chat_request prompt) ;;
             full_description <- lift (collect response) ;;
             (* Parse the accumulated description (it's a JSON string) *)
             description_data <- lift (Json.loads full_description) ;;
             description <- lift (py_get description_data "description" (PyStr EmptyString)) ;;
             (* Save the description to the database *)
             job <- db_setattr job (attr_description description) ;;
             db_commit ;;
             job <- db_refresh job ;;
             (* Prepare the response *)
             generated_at <- datetime_utcnow ;;
             lift (new_response (JobPostingModel.id job) description generated_at))
            (fun e =>
               logger_error ("Error generating job description: " ++ str_exn e) ;;
               raise (HTTPException 500
                        ("Failed to generate job description: " ++ str_exn e)))
      end
  end.

End Handlers.

(** ** Serving a request *)

(** [get_db_session]: a request gets a fresh session on the database and
    the session is closed when the handler is done, which drops whatever
    was not committed.  What remains of the request is its response, the
    database and the calls made to the generation API. *)
Definition serve {A : Type} (handler : M A) (db : Store) : (exn + A) * World :=
  handler {| persisted := db; session := db; api_calls := []; logged := [] |}.

Definition response {A : Type} (r : (exn + A) * World) : exn + A := fst r.
Definition database {A : Type} (r : (exn + A) * World) : Store := persisted (snd r).
Definition external_calls {A : Type} (r : (exn + A) * World) : list ChatRequest :=
  api_calls (snd r).

(** The row of posting [job_id] in a database. *)
Definition posting (db : Store) (job_id : Z) : option JobPostingModel.t :=
  find (fun j => Z.eqb (JobPostingModel.id j) job_id) (job_postings db).

(** The row of company [company_id] in a database. *)
Definition company_of (db : Store) (company_id : Z) : option Company.t :=
  find (fun c => Z.eqb (Company.id c) company_id) (companies db).

(** The company a posting's foreign key resolves to in a database. *)
Definition company_for (db : Store) (job : JobPostingModel.t) : option Company.t :=
  match JobPostingModel.company_id job with
  | Some cid => company_of db cid
  | None => None
  end.

(** Primary keys come from a counter that is ahead of every stored key. *)
Definition keys_below_counter (db : Store) : Prop :=
  Forall (fun j => (JobPostingModel.id j < next_id db)%Z) (job_postings db).

(** What a partial-update body asks of a row: every field set in the body
    takes the body's value, every other field keeps its own. *)
Definition apply_body (body : JobPostingUpdate.t) (row : JobPostingModel.t)
  : JobPostingModel.t :=
  {| JobPostingModel.id := JobPostingModel.id row;
     JobPostingModel.title :=
       match JobPostingUpdate.title body with
       | Unset => JobPostingModel.title row
       | Provided v => v
       end;
     JobPostingModel.description :=
       match JobPostingUpdate.description body with
       | Unset => JobPostingModel.description row
       | Provided v => py_of_str v
       end;
     JobPostingModel.company_id :=
       match JobPostingUpdate.company_id body with
       | Unset => JobPostingModel.company_id row
       | Provided v => v
       end |}.

(** The body that sets no field. *)
Definition empty_body : JobPostingUpdate.t :=
  {| JobPostingUpdate.title := Unset;
     JobPostingUpdate.description := Unset;
     JobPostingUpdate.company_id := Unset |}.

(** [needle] occurs in [text]. *)
Definition contains (needle text : string) : Prop :=
  exists before after, text = before ++ needle ++ after.

(** The rows of key [k] rewritten with [f], the others kept. *)
Definition rewrite_rows (k : Z) (f : JobPostingModel.t -> JobPostingModel.t)
  (rows : list JobPostingModel.t) : list JobPostingModel.t :=
  map (fun j => if Z.eqb (JobPostingModel.id j) k then f j else j) rows.

(** ** A small database used in the examples *)

Definition acme : Company.t :=
  {| Company.id := 1; Company.name := Some "Acme"; Company.industry := Some "Logistics" |}.

Definition driver : JobPostingModel.t :=
  {| JobPostingModel.id := 10;
     JobPostingModel.title := Some "Driver";
     JobPostingModel.description := PyNone;
     JobPostingModel.company_id := Some 1%Z |}.

Definition acme_db : Store :=
  {| companies := [acme]; job_postings := [driver]; next_id := 11 |}.

Definition numbered (k : Z) : JobPostingModel.t :=
  {| JobPostingModel.id := k;
     JobPostingModel.title := Some "Clerk";
     JobPostingModel.description := PyNone;
     JobPostingModel.company_id := Some 1%Z |}.

Definition five_db : Store :=
  {| companies := [acme];
     job_postings := [numbered 1; numbered 2; numbered 3; numbered 4; numbered 5];
     next_id := 6 |}.

(** An environment in which the generation API answers with an empty
    stream and the database accepts every commit. *)
Definition calm : Env :=
  {| openai_create := fun _ => inr {| chunks := []; broken := None |};
     commit_error := None;
     utcnow := 1700000000 |}.

(** The body that sets only [company_id], to null. *)
Definition null_company_body : JobPostingUpdate.t :=
  {| JobPostingUpdate.title := Unset;
     JobPostingUpdate.description := Unset;
     JobPostingUpdate.company_id := Provided None |}.

(** The body that sets only [title]. *)
Definition title_body (t : option string) : JobPostingUpdate.t :=
  {| JobPostingUpdate.title := Provided t;
     JobPostingUpdate.description := Unset;
     JobPostingUpdate.company_id := Unset |}.

(** The database once a partial-update body has been applied to the
    posting [job_id]. *)
Definition updated (db : Store) (job_id : Z) (body : JobPostingUpdate.t) : Store :=
  {| companies := companies db;
     job_postings := rewrite_rows job_id (apply_body body) (job_postings db);
     next_id := next_id db |}.

(** The world a request starts in. *)
Definition opening (db : Store) : World :=
  {| persisted := db; session := db; api_calls := []; logged := [] |}.

(** ** Notions used to state the generation properties *)

(** The fragment of the arguments payload a chunk carries, if any. *)
Definition fragment (chunk : Chunk) : option string :=
  match choices chunk with
  | choice :: _ =>
      match delta_function_call (delta choice) with
      | Some call => arguments call
      | None => None
      end
  | [] => None
  end.

(** The fragments of a run of chunks, in arrival order. *)
Fixpoint fragments (cs : list Chunk) : list string :=
  match cs with
  | [] => []
  | chunk :: rest =>
      match fragment chunk with
      | Some s => s :: fragments rest
      | None => fragments rest
      end
  end.

(** The parts of a list of strings, one after the other. *)
Fixpoint join (parts : list string) : string :=
  match parts with
  | [] => EmptyString
  | s :: rest => s ++ join rest
  end.

(** The failure the generation operation surfaces for the error [e]. *)
Definition generation_failure (e : exn) : exn :=
  HTTPException 500 ("Failed to generate job description: " ++ str_exn e).

(** The database once [description] has been stored on posting [job_id]. *)
Definition described (db : Store) (job_id : Z) (description : pyobj) : Store :=
  {| companies := companies db;
     job_postings :=
       rewrite_rows job_id (fun j => setattr j (attr_description description))
         (job_postings db);
     next_id := next_id db |}.

(** The world in which a generation request ends: whether the generated
    description was committed, the one call made, and the line logged on
    failure. *)
Definition closing (persisted_db session_db : Store) (req : ChatRequest)
  (failure : option exn) : World :=
  {| persisted := persisted_db;
     session := session_db;
     api_calls := [req];
     logged :=
       match failure with
       | Some e => ["Error generating job description: " ++ str_exn e]
       | None => []
       end |}.

(** A chunk carrying the fragment [s]. *)
Definition chunk_of (s : string) : Chunk :=
  {| choices := [ {| delta := {| delta_function_call := Some {| arguments := Some s |} |} |} ] |}.

(** The opening chunk of a function call, which carries no fragment. *)
Definition role_chunk : Chunk :=
  {| choices := [ {| delta := {| delta_function_call := None |} |} ] |}.

(** The API streams the three fragments of the scenario's payload. *)
Definition scenario : Env :=
  {| openai_create := fun _ =>
       inr {| chunks :=
                [ role_chunk;
                  chunk_of ("{" ++ dq ++ "descr");
                  chunk_of ("iption" ++ dq ++ ": " ++ dq ++ "Drives and ");
                  chunk_of ("navigates." ++ dq ++ "}") ];
              broken := None |};
     commit_error := None;
     utcnow := 1700000000 |}.

(** The API streams an object without the description key. *)
Definition keyless : Env :=
  {| openai_create := fun _ =>
       inr {| chunks := [ chunk_of "{" ; chunk_of "}" ]; broken := None |};
     commit_error := None;
     utcnow := 1700000000 |}.

(** The call to the API raises a network error. *)
Definition offline : Env :=
  {| openai_create := fun _ => inl (Error "APIConnectionError" "Connection error.");
     commit_error := None;
     utcnow := 1700000000 |}.

Definition tools_request : JobDescriptionRequest.t :=
  {| JobDescriptionRequest.required_tools := ["forklift"; "GPS"] |}.

(** ** Notions used to state the properties of the store *)

(** The database once the posting of a create request has been added. *)
Definition created (db : Store) (job : JobPostingCreate.t) : Store :=
  {| companies := companies db;
     job_postings :=
       (job_postings db ++ [new_job (JobPostingCreate.model_dump job) (next_id db)])%list;
     next_id := (next_id db + 1)%Z |}.

(** The database once the posting [job_id] has been deleted. *)
Definition removed (db : Store) (job_id : Z) : Store :=
  {| companies := companies db;
     job_postings :=
       filter (fun j => negb (Z.eqb (JobPostingModel.id j) job_id)) (job_postings db);
     next_id := next_id db |}.

(** The world of a request that made no call to the generation API and
    logged nothing. *)
Definition quiet (persisted_db session_db : Store) : World :=
  {| persisted := persisted_db; session := session_db; api_calls := []; logged := [] |}.

(** The primary keys of the stored postings, in stored order. *)
Definition keys (db : Store) : list Z := map JobPostingModel.id (job_postings db).

(** No two postings share a primary key, and the key counter is ahead of
    all of them. *)
Definition well_keyed (db : Store) : Prop :=
  NoDup (keys db) /\ keys_below_counter db.

(** Every posting's [company_id] names a stored company. *)
Definition referential (db : Store) : Prop :=
  Forall (fun j => company_for db j <> None) (job_postings db).

(** The rows a list request with these parameters returns. *)
Definition page (db : Store) (skip limit : Z) : list JobPostingModel.t :=
  firstn (Z.to_nat limit) (skipn (Z.to_nat skip) (job_postings db)).

(** The line the generation handler logs for the error [e]. *)
Definition error_line (e : exn) : string :=
  "Error generating job description: " ++ str_exn e.

(** ** More examples *)

(** Posting 10 after its company has been set to null. *)
Definition orphan : JobPostingModel.t :=
  {| JobPostingModel.id := 10;
     JobPostingModel.title := Some "Driver";
     JobPostingModel.description := PyNone;
     JobPostingModel.company_id := None |}.

Definition orphan_db : Store :=
  {| companies := [acme]; job_postings := [orphan]; next_id := 11 |}.

(** The database refuses every commit. *)
Definition refusing : Env :=
  {| openai_create := fun _ => inr {| chunks := [chunk_of "{}"]; broken := None |};
     commit_error := Some (Error "OperationalError" "database is locked");
     utcnow := 1700000000 |}.

(** The API streams the given chunks and then ends or breaks. *)
Definition streaming (cs : list Chunk) (failure : option exn) : Env :=
  {| openai_create := fun _ => inr {| chunks := cs; broken := failure |};
     commit_error := None;
     utcnow := 1700000000 |}.

(** A chunk without choices. *)
Definition bare_chunk : Chunk := {| choices := [] |}.

(** A body that moves a posting to company [cid]. *)
Definition company_body (cid : Z) : JobPostingUpdate.t :=
  {| JobPostingUpdate.title := Unset;
     JobPostingUpdate.description := Unset;
     JobPostingUpdate.company_id := Provided (Some cid) |}.

Definition dispatcher : JobPostingCreate.t :=
  {| JobPostingCreate.title := "Dispatcher";
     JobPostingCreate.description := Some "Plans routes.";
     JobPostingCreate.company_id := 1 |}.

(** * Properties *)

(** ** Decoding, on examples *)

Example loads_scenario_payload :
  Json.loads ("{" ++ dq ++ "description" ++ dq ++ ": " ++ dq
                ++ "Drives and navigates." ++ dq ++ "}")
  = inr (PyDict [("description", PyStr "Drives and navigates.")]).
Proof. reflexivity. Qed.

Example loads_nested :
  Json.loads (" [1, -2.5e3, true, null, {" ++ dq ++ "a" ++ dq ++ ": [], "
                ++ dq ++ "a" ++ dq ++ ": {}}] ")
  = inr (PyList [PyInt 1; PyFloat "-2.5e3"; PyBool true; PyNone;
                 PyDict [("a", PyDict [])]]).
Proof. reflexivity. Qed.

Example loads_escape :
  Json.loads (dq ++ "a\u0041\n" ++ dq) = inr (PyStr (String "a" (String "A" (String "010" EmptyString)))).
Proof. reflexivity. Qed.

Example loads_empty_buffer :
  Json.loads EmptyString = inl (Error "JSONDecodeError" "Expecting value").
Proof. reflexivity. Qed.

Example loads_cut_short :
  Json.loads ("{" ++ dq ++ "description" ++ dq ++ ": " ++ dq ++ "Drives")
  = inl (Error "JSONDecodeError" "Unterminated string starting at").
Proof. reflexivity. Qed.

Example get_on_a_list :
  py_get (PyList []) "description" (PyStr EmptyString)
  = inl (Error "AttributeError" "'list' object has no attribute 'get'").
Proof. reflexivity. Qed.

(** ** Rows and keys *)

Section Rows.

Local Abbreviation key := JobPostingModel.id.
Local Abbreviation has_key k := (fun j => Z.eqb (JobPostingModel.id j) k).

Lemma posting_key db k row : posting db k = Some row -> key row = k.
Proof.
  unfold posting. intros H. apply find_some in H.
  destruct H as [_ H]. now apply Z.eqb_eq in H.
Qed.

Lemma setattr_key row a : key (setattr row a) = key row.
Proof. destruct a; reflexivity. Qed.

Lemma fold_setattr_key items : forall row, key (fold_left setattr items row) = key row.
Proof.
  induction items as [|a items IH]; intros row; cbn; [reflexivity|].
  rewrite IH. apply setattr_key.
Qed.

Lemma find_rewrite_same k f rows :
  (forall j, key (f j) = key j) ->
  find (has_key k) (rewrite_rows k f rows) = option_map f (find (has_key k) rows).
Proof.
  intros Hf. induction rows as [|j rows IH]; cbn; [reflexivity|].
  destruct (Z.eqb (key j) k) eqn:E.
  - rewrite Hf, E. reflexivity.
  - rewrite E. exact IH.
Qed.

Lemma find_rewrite_other k k' f rows :
  (forall j, key (f j) = key j) -> k' <> k ->
  find (has_key k') (rewrite_rows k f rows) = find (has_key k') rows.
Proof.
  intros Hf Hk. induction rows as [|j rows IH]; cbn; [reflexivity|].
  destruct (Z.eqb (key j) k) eqn:E.
  - apply Z.eqb_eq in E. rewrite Hf.
    assert (Z.eqb (key j) k' = false) as -> by (apply Z.eqb_neq; congruence).
    exact IH.
  - destruct (Z.eqb (key j) k'); [reflexivity | exact IH].
Qed.

Lemma rewrite_rows_id k rows : rewrite_rows k (fun j => j) rows = rows.
Proof.
  unfold rewrite_rows. induction rows as [|j rows IH]; cbn; [reflexivity|].
  rewrite IH. now destruct (Z.eqb (key j) k).
Qed.

Lemma rewrite_rows_compose k f g rows :
  (forall j, key (f j) = key j) ->
  rewrite_rows k g (rewrite_rows k f rows) = rewrite_rows k (fun j => g (f j)) rows.
Proof.
  intros Hf. unfold rewrite_rows. rewrite map_map. apply map_ext. intros j.
  destruct (Z.eqb (key j) k) eqn:E; [rewrite Hf, E | rewrite E]; reflexivity.
Qed.

Lemma find_deleted k rows :
  find (has_key k) (filter (fun j => negb (Z.eqb (key j) k)) rows) = None.
Proof.
  induction rows as [|j rows IH]; cbn; [reflexivity|].
  destruct (Z.eqb (key j) k) eqn:E; cbn; [exact IH|].
  rewrite E. exact IH.
Qed.

Lemma find_appended k row rows :
  Forall (fun j => (key j < k)%Z) rows -> key row = k ->
  find (has_key k) (rows ++ [row]) = Some row.
Proof.
  intros Hall Hrow. induction Hall as [|j rows Hj _ IH]; cbn.
  - subst k. now rewrite Z.eqb_refl.
  - assert (Z.eqb (key j) k = false) as -> by (apply Z.eqb_neq; lia).
    exact IH.
Qed.

Lemma find_fresh k rows :
  Forall (fun j => (key j < k)%Z) rows -> find (has_key k) rows = None.
Proof.
  intros Hall. induction Hall as [|j rows Hj _ IH]; cbn; [reflexivity|].
  assert (Z.eqb (key j) k = false) as -> by (apply Z.eqb_neq; lia).
  exact IH.
Qed.

Lemma new_job_key kwargs k : key (new_job kwargs k) = k.
Proof. unfold new_job. now rewrite fold_setattr_key. Qed.

End Rows.

(** The loop of attribute writes leaves the object, and every row with its
    key, with all the items applied in order. *)
Lemma for_items_run items : forall db_job w,
  for_items items db_job w =
    (inr (fold_left setattr items db_job),
     {| persisted := persisted w;
        session :=
          {| companies := companies (session w);
             job_postings :=
               rewrite_rows (JobPostingModel.id db_job) (fold_left setattr items)
                 (job_postings (session w));
             next_id := next_id (session w) |};
        api_calls := api_calls w;
        logged := logged w |}).
Proof.
  induction items as [|a items IH]; intros db_job w.
  - cbn. rewrite rewrite_rows_id. now destruct w as [p [c j n] a l].
  - cbn [for_items]. unfold bind. cbn [db_setattr]. rewrite IH.
    cbn [persisted session api_calls logged companies job_postings next_id fold_left].
    rewrite setattr_key.
    change (map (fun j => if Z.eqb (JobPostingModel.id j) (JobPostingModel.id db_job)
                          then setattr j a else j) (job_postings (session w)))
      with (rewrite_rows (JobPostingModel.id db_job) (fun j => setattr j a)
              (job_postings (session w))).
    rewrite rewrite_rows_compose by (intros; apply setattr_key).
    reflexivity.
Qed.

Lemma dump_applies_body body row :
  fold_left setattr (JobPostingUpdate.model_dump_exclude_unset body) row
  = apply_body body row.
Proof.
  destruct body as [[|t] [|d] [|c]], row as [i rt rd rc]; reflexivity.
Qed.

(** ** Create *)

(** C5. Creating a posting whose [company_id] names an existing company
    succeeds when the database accepts the commit: the record is stored
    (last, and found again under its id) and the returned posting has the
    input's title, description and company_id plus the id the database
    assigned, which no stored posting had. *)
Theorem create_returns_input_with_new_id env db job company :
  company_of db (JobPostingCreate.company_id job) = Some company ->
  keys_below_counter db ->
  commit_error env = None ->
  let r := serve (create_job_posting env job) db in
  exists row,
    response r = inr row /\
    JobPostingModel.title row = Some (JobPostingCreate.title job) /\
    JobPostingModel.description row = py_of_str (JobPostingCreate.description job) /\
    JobPostingModel.company_id row = Some (JobPostingCreate.company_id job) /\
    JobPostingModel.id row = next_id db /\
    posting db (JobPostingModel.id row) = None /\
    job_postings (database r) = (job_postings db ++ [row])%list /\
    posting (database r) (JobPostingModel.id row) = Some row /\
    companies (database r) = companies db.
Proof.
  intros Hcompany Hkeys Hcommit r.
  pose (row := new_job (JobPostingCreate.model_dump job) (next_id db)).
  assert (Hfound : find (fun j => Z.eqb (JobPostingModel.id j) (next_id db))
                     (job_postings db ++ [row]) = Some row).
  { apply find_appended; [exact Hkeys | apply new_job_key]. }
  exists row. subst r.
  unfold serve, response, database, create_job_posting, bind, query_company,
    db_add, db_commit, db_refresh, posting.
  unfold company_of in Hcompany. subst row.
  cbn in Hfound |- *.
  rewrite Hcompany, Hcommit. cbn. rewrite Hfound. cbn.
  repeat split; try reflexivity.
  - now apply find_fresh.
  - exact Hfound.
Qed.

Lemma create_returns_input_with_new_id_witness :
  exists row,
    response
      (serve
         (create_job_posting calm
            {| JobPostingCreate.title := "Dispatcher";
               JobPostingCreate.description := Some "Plans routes.";
               JobPostingCreate.company_id := 1 |})
         acme_db)
    = inr row /\
    JobPostingModel.title row = Some "Dispatcher" /\
    JobPostingModel.id row = 11%Z.
Proof.
  destruct
    (create_returns_input_with_new_id calm acme_db
       {| JobPostingCreate.title := "Dispatcher";
          JobPostingCreate.description := Some "Plans routes.";
          JobPostingCreate.company_id := 1 |} acme)
    as [row (Hr & Htitle & _ & _ & Hid & _)].
  - reflexivity.
  - repeat constructor.
  - reflexivity.
  - exists row. repeat split; assumption.
Defined.

(** C6. Creating a posting whose [company_id] names no company fails with
    404 "Company not found", and the database is left as it was. *)
Theorem create_unknown_company_not_found env db job :
  company_of db (JobPostingCreate.company_id job) = None ->
  let r := serve (create_job_posting env job) db in
  response r = inl (HTTPException 404 "Company not found") /\
  database r = db.
Proof.
  intros Hcompany r. subst r.
  unfold serve, response, database, create_job_posting, bind, query_company.
  unfold company_of in Hcompany. cbn. rewrite Hcompany. cbn. split; reflexivity.
Qed.

Lemma create_unknown_company_not_found_witness :
  let r :=
    serve
      (create_job_posting calm
         {| JobPostingCreate.title := "Dispatcher";
            JobPostingCreate.description := None;
            JobPostingCreate.company_id := 2 |})
      acme_db in
  response r = inl (HTTPException 404 "Company not found") /\ database r = acme_db.
Proof.
  apply (create_unknown_company_not_found calm acme_db). reflexivity.
Defined.

(** ** Update *)

Lemma rewrite_rows_ext k f g rows :
  (forall j, f j = g j) -> rewrite_rows k f rows = rewrite_rows k g rows.
Proof.
  intros H. unfold rewrite_rows. apply map_ext. intros j.
  destruct (Z.eqb (JobPostingModel.id j) k); [apply H | reflexivity].
Qed.

Lemma apply_body_key body row :
  JobPostingModel.id (apply_body body row) = JobPostingModel.id row.
Proof. reflexivity. Qed.

Lemma apply_empty_body row : apply_body empty_body row = row.
Proof. now destruct row. Qed.

Lemma updated_empty db job_id : updated db job_id empty_body = db.
Proof.
  unfold updated. rewrite (rewrite_rows_ext _ _ (fun j => j)) by apply apply_empty_body.
  rewrite rewrite_rows_id. now destruct db.
Qed.

(** What the update handler does to an existing posting, case by case. *)
Lemma update_run env db job_id body row :
  posting db job_id = Some row ->
  serve (update_job_posting env job_id body) db =
    let checked :=
      match commit_error env with
      | Some e =>
          (inl e,
           {| persisted := db; session := updated db job_id body;
              api_calls := []; logged := [] |})
      | None =>
          (inr (apply_body body row),
           {| persisted := updated db job_id body; session := updated db job_id body;
              api_calls := []; logged := [] |})
      end in
    match field_value (JobPostingUpdate.company_id body) with
    | Some cid =>
        match company_of db cid with
        | Some _ => checked
        | None => (inl (HTTPException 404 "Company not found"), opening db)
        end
    | None => checked
    end.
Proof.
  intros Hrow. pose proof (posting_key _ _ _ Hrow) as Hkey.
  assert (Hsame : forall w : World,
             session w = db -> persisted w = db -> api_calls w = [] -> logged w = [] ->
             bind (for_items (JobPostingUpdate.model_dump_exclude_unset body) row)
               (fun db_job => bind (db_commit env) (fun _ => db_refresh db_job)) w
             = match commit_error env with
               | Some e =>
                   (inl e,
                    {| persisted := db; session := updated db job_id body;
                       api_calls := []; logged := [] |})
               | None =>
                   (inr (apply_body body row),
                    {| persisted := updated db job_id body;
                       session := updated db job_id body;
                       api_calls := []; logged := [] |})
               end).
  { intros w Hs Hp Ha Hl. unfold bind at 1. rewrite for_items_run.
    rewrite Hs, Hp, Ha, Hl, Hkey.
    rewrite (rewrite_rows_ext _ _ (apply_body body)) by apply dump_applies_body.
    rewrite dump_applies_body. fold (updated db job_id body).
    unfold bind, db_commit. destruct (commit_error env) as [e|]; [reflexivity|].
    unfold db_refresh. cbn [persisted session api_calls logged].
    rewrite apply_body_key, Hkey.
    change (job_postings (updated db job_id body))
      with (rewrite_rows job_id (apply_body body) (job_postings db)).
    rewrite find_rewrite_same by apply apply_body_key.
    unfold posting in Hrow. rewrite Hrow. reflexivity. }
  unfold serve, update_job_posting.
  unfold bind at 1. unfold query_job at 1. cbn [session].
  unfold posting in Hrow. rewrite Hrow. fold (posting db job_id) in Hrow.
  unfold bind at 1.
  destruct (field_value (JobPostingUpdate.company_id body)) as [cid|].
  - unfold bind at 1. unfold query_company, company_of. cbn [session].
    destruct (find _ (companies db)); [|reflexivity].
    unfold ret. apply Hsame; reflexivity.
  - unfold ret. apply Hsame; reflexivity.
Qed.

(** C4. A partial update of an existing posting applies exactly the fields
    set in the body.  When the call succeeds the posting returned and
    stored is the old row with the set fields replaced, every other posting
    and every company is as before; when it fails nothing is modified.
    It succeeds whenever the company check passes and the database accepts
    the commit.  In particular the empty body changes nothing, and a body
    that sets only the title changes the title and keeps the description
    and the company_id. *)
Theorem update_applies_exactly_set_fields env db job_id body row :
  posting db job_id = Some row ->
  let r := serve (update_job_posting env job_id body) db in
  (forall out, response r = inr out ->
     out = apply_body body row /\
     database r = updated db job_id body /\
     posting (database r) job_id = Some (apply_body body row) /\
     (forall k, k <> job_id -> posting (database r) k = posting db k) /\
     companies (database r) = companies db) /\
  (forall e, response r = inl e -> database r = db) /\
  ((forall cid, field_value (JobPostingUpdate.company_id body) = Some cid ->
      company_of db cid <> None) ->
   commit_error env = None ->
   response r = inr (apply_body body row)) /\
  (body = empty_body -> commit_error env = None ->
   response r = inr row /\ database r = db) /\
  (forall t, body = title_body t -> commit_error env = None ->
   exists out,
     response r = inr out /\
     posting (database r) job_id = Some out /\
     JobPostingModel.title out = t /\
     JobPostingModel.description out = JobPostingModel.description row /\
     JobPostingModel.company_id out = JobPostingModel.company_id row /\
     JobPostingModel.id out = JobPostingModel.id row).
Proof.
  intros Hrow r.
  assert (Hstored : posting (updated db job_id body) job_id = Some (apply_body body row)).
  { unfold posting, updated. cbn [job_postings].
    rewrite find_rewrite_same by apply apply_body_key.
    unfold posting in Hrow. now rewrite Hrow. }
  assert (Hok : commit_error env = None ->
                (forall cid, field_value (JobPostingUpdate.company_id body) = Some cid ->
                   company_of db cid <> None) ->
                r = (inr (apply_body body row),
                     {| persisted := updated db job_id body;
                        session := updated db job_id body;
                        api_calls := []; logged := [] |})).
  { intros Hcommit Hcheck. subst r. rewrite (update_run _ _ _ _ _ Hrow). cbv zeta.
    rewrite Hcommit.
    destruct (field_value (JobPostingUpdate.company_id body)) as [cid|]; [|reflexivity].
    specialize (Hcheck cid eq_refl).
    destruct (company_of db cid); [reflexivity | congruence]. }
  assert (Hothers : forall k, k <> job_id ->
                      posting (updated db job_id body) k = posting db k).
  { intros k Hk. unfold posting, updated. cbn [job_postings].
    now apply find_rewrite_other. }
  split; [|split; [|split; [|split]]].
  - intros out Hout. subst r.
    rewrite (update_run _ _ _ _ _ Hrow) in Hout |- *. cbv zeta in Hout |- *.
    destruct (field_value (JobPostingUpdate.company_id body)) as [cid|];
      [destruct (company_of db cid); [|discriminate Hout]|];
      (destruct (commit_error env); [discriminate Hout|]);
      injection Hout as <-; repeat split; solve [reflexivity | assumption].
  - intros e He. subst r. rewrite (update_run _ _ _ _ _ Hrow) in *. cbv zeta in *.
    destruct (field_value (JobPostingUpdate.company_id body)) as [cid|].
    + destruct (company_of db cid); [|reflexivity].
      destruct (commit_error env); [reflexivity | discriminate He].
    + destruct (commit_error env); [reflexivity | discriminate He].
  - intros Hcheck Hcommit. now rewrite (Hok Hcommit Hcheck).
  - intros -> Hcommit. rewrite Hok; [|exact Hcommit|discriminate].
    unfold response, database. cbn [fst snd persisted].
    now rewrite apply_empty_body, updated_empty.
  - intros t -> Hcommit. rewrite Hok; [|exact Hcommit|discriminate].
    exists (apply_body (title_body t) row).
    unfold response, database. cbn [fst snd persisted].
    repeat split; try reflexivity. exact Hstored.
Qed.

Lemma update_applies_exactly_set_fields_witness :
  let r := serve (update_job_posting calm 10 (title_body (Some "Senior driver"))) acme_db in
  response r =
    inr {| JobPostingModel.id := 10;
           JobPostingModel.title := Some "Senior driver";
           JobPostingModel.description := PyNone;
           JobPostingModel.company_id := Some 1%Z |}.
Proof.
  refine (proj1 (proj2 (proj2
    (update_applies_exactly_set_fields calm acme_db 10
       (title_body (Some "Senior driver")) driver eq_refl))) _ eq_refl).
  intros cid H. discriminate H.
Defined.

(** X4. An update that sets [company_id] to a non-null value is checked: it
    fails with 404 when no company has that id, and when it succeeds the
    posting's [company_id] names a stored company. *)
Lemma update_checks_non_null_company env db job_id body row cid :
  posting db job_id = Some row ->
  JobPostingUpdate.company_id body = Provided (Some cid) ->
  let r := serve (update_job_posting env job_id body) db in
  (company_of db cid = None ->
   response r = inl (HTTPException 404 "Company not found") /\ database r = db) /\
  (forall out, response r = inr out ->
     JobPostingModel.company_id out = Some cid /\
     company_for (database r) out <> None).
Proof.
  intros Hrow Hbody r. subst r. rewrite (update_run _ _ _ _ _ Hrow). cbv zeta.
  rewrite Hbody. cbn [field_value]. unfold company_for, company_of.
  destruct (find _ (companies db)) as [c|] eqn:Hc.
  - split; [discriminate|]. intros out Hout.
    destruct (commit_error env); cbn in Hout; [discriminate|].
    injection Hout as <-. cbn. rewrite Hbody. split; [reflexivity|].
    rewrite Hc. discriminate.
  - split; [intros _; split; reflexivity | discriminate].
Qed.

(** C3. On the database holding company 1 and posting 10, an update of
    posting 10 whose body sets [company_id] to null passes no company
    check: unless the database itself refuses the commit, the call succeeds
    and posting 10 is stored with [company_id] null, which names no
    company. *)
Theorem update_null_company_id_unchecked env :
  let r := serve (update_job_posting env 10 null_company_body) acme_db in
  let orphan :=
    {| JobPostingModel.id := 10;
       JobPostingModel.title := Some "Driver";
       JobPostingModel.description := PyNone;
       JobPostingModel.company_id := None |} in
  response r =
    match commit_error env with
    | Some e => inl e
    | None => inr orphan
    end /\
  posting (database r) 10 =
    match commit_error env with
    | Some _ => Some driver
    | None => Some orphan
    end /\
  company_for (database r) orphan = None.
Proof.
  intros r orphan. subst r.
  rewrite (update_run env acme_db 10 null_company_body driver eq_refl).
  cbv zeta. cbn [field_value JobPostingUpdate.company_id null_company_body].
  destruct (commit_error env); repeat split; reflexivity.
Qed.

(** ** Delete and get *)

Lemma find_other_after_delete k k' rows :
  k' <> k ->
  find (fun j => Z.eqb (JobPostingModel.id j) k')
    (filter (fun j => negb (Z.eqb (JobPostingModel.id j) k)) rows)
  = find (fun j => Z.eqb (JobPostingModel.id j) k') rows.
Proof.
  intros Hk. induction rows as [|j rows IH]; cbn; [reflexivity|].
  destruct (Z.eqb (JobPostingModel.id j) k) eqn:E; cbn.
  - apply Z.eqb_eq in E.
    assert (Z.eqb (JobPostingModel.id j) k' = false) as -> by (apply Z.eqb_neq; congruence).
    exact IH.
  - destruct (Z.eqb (JobPostingModel.id j) k'); [reflexivity | exact IH].
Qed.

(** C9. Deleting an existing posting, the database accepting the commit,
    answers with the confirmation message and removes the record: a get on
    the same id then fails with 404 "Job posting not found".  The other
    postings stay. *)
Theorem delete_then_get_not_found env db job_id row :
  posting db job_id = Some row ->
  commit_error env = None ->
  let deleted := serve (delete_job_posting env job_id) db in
  response deleted = inr [("message", "Job posting deleted successfully")] /\
  posting (database deleted) job_id = None /\
  response (serve (read_job_posting job_id) (database deleted))
    = inl (HTTPException 404 "Job posting not found") /\
  (forall k, k <> job_id -> posting (database deleted) k = posting db k).
Proof.
  intros Hrow Hcommit deleted. pose proof (posting_key _ _ _ Hrow) as Hkey.
  subst deleted.
  unfold serve, delete_job_posting, bind, query_job, db_delete, with_session,
    db_commit, read_job_posting, response, database, posting, ret, raise.
  unfold posting in Hrow. cbn [session persisted fst snd job_postings].
  rewrite Hrow, Hcommit. cbn [session persisted fst snd job_postings].
  rewrite Hkey, find_deleted.
  split; [reflexivity|]. split; [reflexivity|]. split.
  - unfold bind, query_job. cbn [session job_postings fst].
    now rewrite find_deleted.
  - intros k Hk. now apply find_other_after_delete.
Qed.

Lemma delete_then_get_not_found_witness :
  response (serve (read_job_posting 10)
              (database (serve (delete_job_posting calm 10) acme_db)))
  = inl (HTTPException 404 "Job posting not found").
Proof.
  exact (proj1 (proj2 (proj2
    (delete_then_get_not_found calm acme_db 10 driver eq_refl eq_refl)))).
Defined.

(** ** List *)

Lemma page_of_rows {A : Type} (skip limit : nat) (rows : list A) :
  rows = (firstn skip rows ++ firstn limit (skipn skip rows)
            ++ skipn limit (skipn skip rows))%list.
Proof. now rewrite !firstn_skipn. Qed.

(** C8. The list operation takes [skip] (default 0) and [limit] (default
    100) and changes nothing.  For non-negative parameters it returns a run
    of consecutive stored postings, in stored order, that starts after the
    first [skip] rows (or after the last row when there are fewer) and
    holds [limit] rows (or all that remain when there are fewer).  On a
    store of five postings, [skip=0, limit=100] returns all five in order
    and [skip=5] returns the empty sequence. *)
Theorem list_returns_page_in_stored_order db :
  serve (read_job_postings None None) db
    = serve (read_job_postings (Some 0%Z) (Some 100%Z)) db /\
  (forall skip limit, database (serve (read_job_postings skip limit) db) = db) /\
  (forall skip limit, (0 <= skip)%Z -> (0 <= limit)%Z ->
     exists before rows after,
       response (serve (read_job_postings (Some skip) (Some limit)) db) = inr rows /\
       job_postings db = (before ++ rows ++ after)%list /\
       Z.of_nat (List.length before)
         = Z.min skip (Z.of_nat (List.length (job_postings db))) /\
       Z.of_nat (List.length rows)
         = Z.min limit
             (Z.of_nat (List.length (job_postings db)) - Z.of_nat (List.length before))) /\
  (List.length (job_postings db) = 5%nat ->
     response (serve (read_job_postings (Some 0%Z) (Some 100%Z)) db)
       = inr (job_postings db) /\
     forall limit,
       response (serve (read_job_postings (Some 5%Z) limit) db) = inr []).
Proof.
  split; [reflexivity|]. split; [reflexivity|]. split.
  - intros skip limit Hskip Hlimit.
    exists (firstn (Z.to_nat skip) (job_postings db)),
           (firstn (Z.to_nat limit) (skipn (Z.to_nat skip) (job_postings db))),
           (skipn (Z.to_nat limit) (skipn (Z.to_nat skip) (job_postings db))).
    split; [reflexivity|]. split; [apply page_of_rows|].
    rewrite !length_firstn, length_skipn. lia.
  - intros Hfive.
    unfold serve, read_job_postings, bind, query_jobs, ret, response.
    cbn [session fst].
    split.
    + change (Z.to_nat 0) with 0%nat. cbn [skipn].
      rewrite firstn_all2; [reflexivity|]. rewrite Hfive.
      change (Z.to_nat 100) with 100%nat. lia.
    + intros limit. change (Z.to_nat 5) with 5%nat.
      rewrite skipn_all2 by lia. now rewrite firstn_nil.
Qed.

Lemma list_returns_page_in_stored_order_witness :
  response (serve (read_job_postings (Some 0%Z) (Some 100%Z)) five_db)
    = inr [numbered 1; numbered 2; numbered 3; numbered 4; numbered 5] /\
  response (serve (read_job_postings (Some 5%Z) None) five_db) = inr [].
Proof.
  destruct (proj2 (proj2 (proj2 (list_returns_page_in_stored_order five_db))) eq_refl)
    as [Hall Hnone].
  split; [exact Hall | exact (Hnone None)].
Defined.

(** ** Description generation *)

Lemma append_assoc (a b c : string) : (a ++ b) ++ c = a ++ (b ++ c).
Proof. induction a as [|x a IH]; cbn; [reflexivity | now rewrite IH]. Qed.

Lemma append_empty_r (a : string) : a ++ EmptyString = a.
Proof. induction a as [|x a IH]; cbn; [reflexivity | now rewrite IH]. Qed.

Lemma add_chunk_fragment acc chunk :
  choices chunk <> [] ->
  add_chunk acc chunk =
    inr (match fragment chunk with
         | Some s => acc ++ s
         | None => acc
         end).
Proof.
  intros Hchoices. unfold add_chunk, fragment.
  destruct (choices chunk) as [|choice rest]; [congruence|].
  destruct (delta_function_call (delta choice)) as [call|]; [|reflexivity].
  destruct (arguments call) as [[|c s]|]; try reflexivity.
  now rewrite append_empty_r.
Qed.

(** The loop appends the fragments to the buffer in arrival order. *)
Lemma for_chunks_appends cs : forall acc,
  Forall (fun chunk => choices chunk <> []) cs ->
  for_chunks cs acc = inr (acc ++ join (fragments cs)).
Proof.
  induction cs as [|chunk cs IH]; intros acc Hall; cbn [for_chunks fragments join].
  - now rewrite append_empty_r.
  - inversion Hall as [|? ? Hchunk Hrest]; subst.
    rewrite (add_chunk_fragment _ _ Hchunk).
    destruct (fragment chunk) as [s|]; rewrite (IH _ Hrest); [|reflexivity].
    cbn [join]. now rewrite append_assoc.
Qed.

Lemma collect_joins stream :
  Forall (fun chunk => choices chunk <> []) (chunks stream) ->
  broken stream = None ->
  collect stream = inr (join (fragments (chunks stream))).
Proof.
  intros Hall Hend. unfold collect. rewrite (for_chunks_appends _ _ Hall), Hend.
  reflexivity.
Qed.

(** A chunk without choices breaks the loop at that chunk. *)
Lemma for_chunks_no_choices before chunk after acc :
  Forall (fun c => choices c <> []) before ->
  choices chunk = [] ->
  for_chunks (before ++ chunk :: after) acc
    = inl (Error "IndexError" "list index out of range").
Proof.
  intros Hall Hnone. revert acc.
  induction Hall as [|c before Hc _ IH]; intros acc; cbn [for_chunks app].
  - unfold add_chunk. now rewrite Hnone.
  - rewrite (add_chunk_fragment _ _ Hc). apply IH.
Qed.

(** What the generation handler does for an existing posting with a
    resolvable company, step by step. *)
Lemma generate_run env db id request job company :
  posting db id = Some job ->
  company_for db job = Some company ->
  serve (generate_job_description env id request) db =
    let req := chat_request (build_prompt job company request) in
    let fail (e : exn) (session_db : Store) :=
      (inl (generation_failure e), closing db session_db req (Some e)) in
    match openai_create env req with
    | inl e => fail e db
    | inr stream =>
        match collect stream with
        | inl e => fail e db
        | inr full_description =>
            match Json.loads full_description with
            | inl e => fail e db
            | inr description_data =>
                match py_get description_data "description" (PyStr EmptyString) with
                | inl e => fail e db
                | inr description =>
                    match commit_error env with
                    | Some e => fail e (described db id description)
                    | None =>
                        match new_response id description (utcnow env) with
                        | inl e =>
                            (inl (generation_failure e),
                             closing (described db id description)
                               (described db id description) req (Some e))
                        | inr out =>
                            (inr out,
                             closing (described db id description)
                               (described db id description) req None)
                        end
                    end
                end
            end
        end
    end.
Proof.
  intros Hjob Hcompany. pose proof (posting_key _ _ _ Hjob) as Hkey.
  unfold serve, generate_job_description.
  unfold bind at 1. unfold query_job at 1. cbn [session].
  unfold posting in Hjob. rewrite Hjob.
  unfold bind at 1.
  assert (Hrel : forall w, session w = db -> related_company job w = (inr (Some company), w)).
  { intros w Hw. unfold related_company. unfold company_for in Hcompany.
    destruct (JobPostingModel.company_id job) as [cid|]; [|discriminate].
    unfold query_company. rewrite Hw. unfold company_of in Hcompany.
    now rewrite Hcompany. }
  rewrite Hrel by reflexivity.
  cbv zeta. unfold try_except.
  unfold bind at 1. unfold chat_completions_create at 1.
  cbn [persisted session api_calls logged app].
  destruct (openai_create env _) as [e|stream]; [reflexivity|].
  unfold bind at 1. unfold lift at 1.
  destruct (collect stream) as [e|full_description]; [reflexivity|].
  unfold bind at 1. unfold lift at 1.
  destruct (Json.loads full_description) as [e|description_data]; [reflexivity|].
  unfold bind at 1. unfold lift at 1.
  destruct (py_get description_data _ _) as [e|description]; [reflexivity|].
  unfold bind at 1. unfold db_setattr at 1.
  cbn [persisted session api_calls logged companies job_postings next_id].
  rewrite Hkey.
  change (map (fun j => if Z.eqb (JobPostingModel.id j) id
                        then setattr j (attr_description description) else j)
            (job_postings db))
    with (rewrite_rows id (fun j => setattr j (attr_description description))
            (job_postings db)).
  fold (described db id description).
  unfold bind at 1. unfold db_commit at 1.
  destruct (commit_error env) as [e|]; [reflexivity|].
  cbn [persisted session api_calls logged].
  unfold bind at 1. unfold db_refresh at 1.
  cbn [persisted session api_calls logged].
  rewrite setattr_key, Hkey.
  change (job_postings (described db id description))
    with (rewrite_rows id (fun j => setattr j (attr_description description))
            (job_postings db)).
  rewrite find_rewrite_same by (intros; apply setattr_key).
  rewrite Hjob. cbn [option_map].
  unfold bind at 1. unfold datetime_utcnow at 1.
  unfold lift. rewrite setattr_key, Hkey.
  destruct (new_response id description (utcnow env)) as [e|out]; reflexivity.
Qed.

Lemma posting_described db id job description :
  posting db id = Some job ->
  posting (described db id description) id
    = Some (setattr job (attr_description description)).
Proof.
  intros Hjob. unfold posting, described. cbn [job_postings].
  rewrite find_rewrite_same by (intros; apply setattr_key).
  unfold posting in Hjob. now rewrite Hjob.
Qed.

Lemma contains_middle (before needle after : string) :
  contains needle (before ++ needle ++ after).
Proof. now exists before, after. Qed.

(** Every part the prompt is built from occurs in it. *)
Lemma prompt_mentions job company request :
  let prompt := build_prompt job company request in
  contains (format_str (JobPostingModel.title job)) prompt /\
  contains (format_str (Company.name company)) prompt /\
  contains (format_str (Company.industry company)) prompt /\
  contains (String.concat ", " (JobDescriptionRequest.required_tools request)) prompt.
Proof.
  cbv zeta. unfold build_prompt.
  set (title := format_str (JobPostingModel.title job)).
  set (name := format_str (Company.name company)).
  set (industry := format_str (Company.industry company)).
  set (tools := String.concat ", " (JobDescriptionRequest.required_tools request)).
  repeat split.
  - apply contains_middle.
  - rewrite <- !(append_assoc _ _ (name ++ _)). apply contains_middle.
  - rewrite <- !(append_assoc _ _ (industry ++ _)). apply contains_middle.
  - rewrite <- !(append_assoc _ _ (tools ++ _)). apply contains_middle.
Qed.

(** C7. A generation request for a job id that matches no posting fails
    with 404 "Job posting not found"; no call to the generation API is
    made and the database is left as it was. *)
Theorem generation_unknown_job_makes_no_call env db id request :
  posting db id = None ->
  let r := serve (generate_job_description env id request) db in
  response r = inl (HTTPException 404 "Job posting not found") /\
  external_calls r = [] /\
  database r = db.
Proof.
  intros Hjob r.
  assert (Hrun : r = (inl (HTTPException 404 "Job posting not found"), opening db)).
  { subst r. unfold serve, generate_job_description.
    unfold bind at 1. unfold query_job. cbn [session].
    unfold posting in Hjob. now rewrite Hjob. }
  rewrite Hrun. repeat split; reflexivity.
Qed.

Lemma generation_unknown_job_makes_no_call_witness :
  let r := serve (generate_job_description scenario 999 tools_request) acme_db in
  response r = inl (HTTPException 404 "Job posting not found") /\
  external_calls r = [] /\
  database r = acme_db.
Proof.
  apply (generation_unknown_job_makes_no_call scenario acme_db 999 tools_request).
  reflexivity.
Defined.

(** C1. Generation for an existing posting with a resolvable company:
    the prompt sent to the API contains the job title, the company name,
    the company industry and the comma-joined required tools; the
    fragments of the stream are appended in arrival order into one buffer;
    when that buffer is a JSON object whose description is the text [text]
    and the database accepts the commit, [text] is stored as the posting's
    description and the response carries the posting's id and [text]. *)
Theorem generation_stores_streamed_description
  env db id request job company stream items text :
  posting db id = Some job ->
  company_for db job = Some company ->
  let prompt := build_prompt job company request in
  openai_create env (chat_request prompt) = inr stream ->
  Forall (fun chunk => choices chunk <> []) (chunks stream) ->
  broken stream = None ->
  Json.loads (join (fragments (chunks stream))) = inr (PyDict items) ->
  dict_get "description" items = Some (PyStr text) ->
  commit_error env = None ->
  let r := serve (generate_job_description env id request) db in
  (contains (format_str (JobPostingModel.title job)) prompt /\
   contains (format_str (Company.name company)) prompt /\
   contains (format_str (Company.industry company)) prompt /\
   contains (String.concat ", " (JobDescriptionRequest.required_tools request)) prompt) /\
  external_calls r = [chat_request prompt] /\
  collect stream = inr (join (fragments (chunks stream))) /\
  response r =
    inr {| JobDescriptionResponse.job_id := id;
           JobDescriptionResponse.description := text;
           JobDescriptionResponse.generated_at := utcnow env |} /\
  JobPostingModel.id job = id /\
  posting (database r) id = Some (setattr job (attr_description (PyStr text))) /\
  (forall k, k <> id -> posting (database r) k = posting db k).
Proof.
  intros Hjob Hcompany prompt Hcall Hchoices Hend Hjson Hget Hcommit r.
  pose proof (collect_joins _ Hchoices Hend) as Hcollect.
  split; [apply prompt_mentions|].
  subst r. rewrite (generate_run _ _ _ _ _ _ Hjob Hcompany). cbv zeta.
  fold prompt. rewrite Hcall, Hcollect, Hjson.
  cbn [py_get]. rewrite Hget, Hcommit. cbn [new_response].
  unfold external_calls, response, database, closing. cbn [fst snd api_calls persisted].
  repeat split.
  - exact (posting_key _ _ _ Hjob).
  - now apply posting_described.
  - intros k Hk. unfold posting, described. cbn [job_postings].
    apply find_rewrite_other; [intros; apply setattr_key | exact Hk].
Qed.

Lemma generation_stores_streamed_description_witness :
  let r := serve (generate_job_description scenario 10 tools_request) acme_db in
  let prompt := build_prompt driver acme tools_request in
  (contains "Driver" prompt /\ contains "Acme" prompt /\
   contains "Logistics" prompt /\ contains "forklift, GPS" prompt) /\
  response r =
    inr {| JobDescriptionResponse.job_id := 10;
           JobDescriptionResponse.description := "Drives and navigates.";
           JobDescriptionResponse.generated_at := 1700000000 |} /\
  posting (database r) 10 =
    Some {| JobPostingModel.id := 10;
            JobPostingModel.title := Some "Driver";
            JobPostingModel.description := PyStr "Drives and navigates.";
            JobPostingModel.company_id := Some 1%Z |}.
Proof.
  destruct
    (generation_stores_streamed_description scenario acme_db 10 tools_request
       driver acme
       {| chunks :=
            [ role_chunk;
              chunk_of ("{" ++ dq ++ "descr");
              chunk_of ("iption" ++ dq ++ ": " ++ dq ++ "Drives and ");
              chunk_of ("navigates." ++ dq ++ "}") ];
          broken := None |}
       [("description", PyStr "Drives and navigates.")]
       "Drives and navigates.")
    as (Hprompt & _ & _ & Hresponse & _ & Hstored & _).
  - reflexivity.
  - reflexivity.
  - reflexivity.
  - repeat constructor; discriminate.
  - reflexivity.
  - vm_compute. reflexivity.
  - reflexivity.
  - reflexivity.
  - cbv zeta. split; [exact Hprompt|]. split; [exact Hresponse | exact Hstored].
Defined.

(** C10. When the accumulated buffer parses as a JSON object that has no
    "description" key, and the database accepts the commit, generation does
    not fail: the response is a success carrying the empty string, and the
    empty string is stored as the posting's description. *)
Theorem generation_missing_key_stores_empty_string
  env db id request job company stream full_description items :
  posting db id = Some job ->
  company_for db job = Some company ->
  openai_create env (chat_request (build_prompt job company request)) = inr stream ->
  collect stream = inr full_description ->
  Json.loads full_description = inr (PyDict items) ->
  dict_get "description" items = None ->
  commit_error env = None ->
  let r := serve (generate_job_description env id request) db in
  response r =
    inr {| JobDescriptionResponse.job_id := id;
           JobDescriptionResponse.description := EmptyString;
           JobDescriptionResponse.generated_at := utcnow env |} /\
  posting (database r) id
    = Some (setattr job (attr_description (PyStr EmptyString))) /\
  logged (snd r) = [].
Proof.
  intros Hjob Hcompany Hcall Hcollect Hjson Hget Hcommit r.
  subst r. rewrite (generate_run _ _ _ _ _ _ Hjob Hcompany). cbv zeta.
  rewrite Hcall, Hcollect, Hjson. cbn [py_get]. rewrite Hget, Hcommit.
  cbn [new_response]. unfold response, database, closing.
  cbn [fst snd persisted logged].
  repeat split. now apply posting_described.
Qed.

Lemma generation_missing_key_stores_empty_string_witness :
  let r := serve (generate_job_description keyless 10 tools_request) acme_db in
  response r =
    inr {| JobDescriptionResponse.job_id := 10;
           JobDescriptionResponse.description := EmptyString;
           JobDescriptionResponse.generated_at := 1700000000 |} /\
  posting (database r) 10 =
    Some {| JobPostingModel.id := 10;
            JobPostingModel.title := Some "Driver";
            JobPostingModel.description := PyStr EmptyString;
            JobPostingModel.company_id := Some 1%Z |}.
Proof.
  destruct
    (generation_missing_key_stores_empty_string keyless acme_db 10 tools_request
       driver acme
       {| chunks := [ chunk_of "{" ; chunk_of "}" ]; broken := None |}
       "{}" [])
    as (Hresponse & Hstored & _); try reflexivity.
  split; [exact Hresponse | exact Hstored].
Defined.

Lemma failure_detail e :
  exists detail,
    generation_failure e = HTTPException 500 detail /\ contains (str_exn e) detail.
Proof.
  eexists. split; [reflexivity|].
  exists "Failed to generate job description: ", EmptyString.
  now rewrite append_empty_r.
Qed.

(** C2. Generation for an existing posting with a resolvable company:
    whichever step raises (the call to the API, the iteration of the
    stream, the parsing of the buffer, the extraction of the description,
    the commit, the building of the response), the operation answers with
    one 500 failure whose detail contains the message of that error, and
    every failure of the operation has this form.  When the failure comes
    before the commit has gone through, the database, and so the posting's
    description, is as it was before the call.  (Building the prompt
    cannot raise.) *)
Theorem generation_error_surfaces_as_500 env db id request job company :
  posting db id = Some job ->
  company_for db job = Some company ->
  let req := chat_request (build_prompt job company request) in
  let r := serve (generate_job_description env id request) db in
  let surfaced (e : exn) :=
    response r = inl (generation_failure e) /\
    exists detail,
      generation_failure e = HTTPException 500 detail /\ contains (str_exn e) detail in
  let untouched := database r = db /\ posting (database r) id = Some job in
  (forall e, openai_create env req = inl e -> surfaced e /\ untouched) /\
  (forall stream e,
     openai_create env req = inr stream ->
     collect stream = inl e ->
     surfaced e /\ untouched) /\
  (forall stream full_description e,
     openai_create env req = inr stream ->
     collect stream = inr full_description ->
     Json.loads full_description = inl e ->
     surfaced e /\ untouched) /\
  (forall stream full_description description_data e,
     openai_create env req = inr stream ->
     collect stream = inr full_description ->
     Json.loads full_description = inr description_data ->
     py_get description_data "description" (PyStr EmptyString) = inl e ->
     surfaced e /\ untouched) /\
  (forall stream full_description description_data description e,
     openai_create env req = inr stream ->
     collect stream = inr full_description ->
     Json.loads full_description = inr description_data ->
     py_get description_data "description" (PyStr EmptyString) = inr description ->
     commit_error env = Some e ->
     surfaced e /\ untouched) /\
  (forall stream full_description description_data description e,
     openai_create env req = inr stream ->
     collect stream = inr full_description ->
     Json.loads full_description = inr description_data ->
     py_get description_data "description" (PyStr EmptyString) = inr description ->
     commit_error env = None ->
     new_response id description (utcnow env) = inl e ->
     surfaced e) /\
  (forall failure, response r = inl failure ->
     exists e detail,
       failure = HTTPException 500 detail /\
       generation_failure e = failure /\
       contains (str_exn e) detail).
Proof.
  intros Hjob Hcompany req r surfaced untouched.
  pose proof (generate_run env db id request job company Hjob Hcompany) as Hrun.
  cbv zeta in Hrun. fold req in Hrun. fold r in Hrun.
  assert (Hfail : forall e session_db,
             r = (inl (generation_failure e), closing db session_db req (Some e)) ->
             surfaced e /\ untouched).
  { intros e session_db Hr. unfold surfaced, untouched. rewrite Hr.
    split; [split; [reflexivity | apply failure_detail]|].
    split; [reflexivity | exact Hjob]. }
  repeat apply conj.
  - intros e Hcall. apply (Hfail e db). now rewrite Hrun, Hcall.
  - intros stream e Hcall Hcollect. apply (Hfail e db).
    now rewrite Hrun, Hcall, Hcollect.
  - intros stream buf e Hcall Hcollect Hjson. apply (Hfail e db).
    now rewrite Hrun, Hcall, Hcollect, Hjson.
  - intros stream buf data e Hcall Hcollect Hjson Hget. apply (Hfail e db).
    now rewrite Hrun, Hcall, Hcollect, Hjson, Hget.
  - intros stream buf data d e Hcall Hcollect Hjson Hget Hcommit.
    apply (Hfail e (described db id d)).
    now rewrite Hrun, Hcall, Hcollect, Hjson, Hget, Hcommit.
  - intros stream buf data d e Hcall Hcollect Hjson Hget Hcommit Hresp.
    unfold surfaced. rewrite Hrun, Hcall, Hcollect, Hjson, Hget, Hcommit, Hresp.
    split; [reflexivity | apply failure_detail].
  - intros failure Hfailure. rewrite Hrun in Hfailure.
    assert (Hshape : forall e, inl (generation_failure e) = inl failure :> exn + JobDescriptionResponse.t ->
                       exists e' detail,
                         failure = HTTPException 500 detail /\
                         generation_failure e' = failure /\
                         contains (str_exn e') detail).
    { intros e He. injection He as <-. exists e.
      destruct (failure_detail e) as [detail [Hd Hc]].
      exists detail. now repeat split. }
    destruct (openai_create env req) as [e|stream]; [now apply (Hshape e)|].
    destruct (collect stream) as [e|buf]; [now apply (Hshape e)|].
    destruct (Json.loads buf) as [e|data]; [now apply (Hshape e)|].
    destruct (py_get data _ _) as [e|d]; [now apply (Hshape e)|].
    destruct (commit_error env) as [e|]; [now apply (Hshape e)|].
    destruct (new_response id d (utcnow env)) as [e|out]; [now apply (Hshape e)|].
    discriminate Hfailure.
Qed.

Lemma generation_error_surfaces_as_500_witness :
  let r := serve (generate_job_description offline 10 tools_request) acme_db in
  response r
    = inl (HTTPException 500 "Failed to generate job description: Connection error.") /\
  posting (database r) 10 = Some driver.
Proof.
  destruct
    (proj1
       (generation_error_surfaces_as_500 offline acme_db 10 tools_request driver acme
          eq_refl eq_refl)
       (Error "APIConnectionError" "Connection error.") eq_refl)
    as [[Hresponse _] [_ Hposting]].
  split; [exact Hresponse | exact Hposting].
Defined.

(** ** The key discipline is kept *)

Lemma rewrite_rows_keys k f rows n :
  (forall j, JobPostingModel.id (f j) = JobPostingModel.id j) ->
  Forall (fun j => (JobPostingModel.id j < n)%Z) rows ->
  Forall (fun j => (JobPostingModel.id j < n)%Z) (rewrite_rows k f rows).
Proof.
  intros Hf Hall. unfold rewrite_rows. apply Forall_map.
  apply (Forall_impl _ (P := fun j => (JobPostingModel.id j < n)%Z)); [|exact Hall].
  intros j Hj. destruct (Z.eqb (JobPostingModel.id j) k); [now rewrite Hf | exact Hj].
Qed.

Lemma empty_database_keys cs : keys_below_counter {| companies := cs; job_postings := []; next_id := 1 |}.
Proof. constructor. Qed.

Lemma create_keeps_keys env db job :
  keys_below_counter db ->
  keys_below_counter (database (serve (create_job_posting env job) db)).
Proof.
  intros Hkeys.
  unfold serve, create_job_posting, bind, query_company, db_add, db_commit,
    db_refresh, database, raise.
  cbn [session persisted companies job_postings next_id snd].
  destruct (find _ (companies db)); [|exact Hkeys].
  destruct (commit_error env); [exact Hkeys|].
  cbn [session persisted companies job_postings next_id snd].
  assert (Hnew : keys_below_counter
                   {| companies := companies db;
                      job_postings :=
                        (job_postings db
                           ++ [new_job (JobPostingCreate.model_dump job) (next_id db)])%list;
                      next_id := (next_id db + 1)%Z |}).
  { unfold keys_below_counter. cbn [job_postings next_id]. apply Forall_app. split.
    - apply (Forall_impl _ (P := fun j => (JobPostingModel.id j < next_id db)%Z));
        [intros j Hj; lia | exact Hkeys].
    - constructor; [rewrite new_job_key; lia | constructor]. }
  destruct (find _ _); exact Hnew.
Qed.

Lemma update_keeps_keys env db job_id body :
  keys_below_counter db ->
  keys_below_counter (database (serve (update_job_posting env job_id body) db)).
Proof.
  intros Hkeys. destruct (posting db job_id) as [row|] eqn:Hrow.
  - rewrite (update_run _ _ _ _ _ Hrow). cbv zeta.
    assert (Hnew : keys_below_counter (updated db job_id body)).
    { apply rewrite_rows_keys; [apply apply_body_key | exact Hkeys]. }
    destruct (field_value (JobPostingUpdate.company_id body)) as [cid|];
      [destruct (company_of db cid); [|exact Hkeys]|];
      destruct (commit_error env); assumption.
  - unfold serve, update_job_posting. unfold bind at 1. unfold query_job.
    cbn [session]. unfold posting in Hrow. rewrite Hrow. exact Hkeys.
Qed.

Lemma delete_keeps_keys env db job_id :
  keys_below_counter db ->
  keys_below_counter (database (serve (delete_job_posting env job_id) db)).
Proof.
  intros Hkeys.
  unfold serve, delete_job_posting, bind, query_job, db_delete, with_session,
    db_commit, database, raise, ret.
  cbn [session persisted snd].
  destruct (find _ (job_postings db)); [|exact Hkeys].
  destruct (commit_error env); [exact Hkeys|].
  unfold keys_below_counter. cbn [session persisted snd job_postings next_id].
  apply Forall_forall. intros j Hj. apply filter_In in Hj. destruct Hj as [Hj _].
  revert j Hj. apply Forall_forall. exact Hkeys.
Qed.

Lemma generate_keeps_keys env db id request :
  keys_below_counter db ->
  keys_below_counter (database (serve (generate_job_description env id request) db)).
Proof.
  intros Hkeys. destruct (posting db id) as [job|] eqn:Hjob.
  - destruct (company_for db job) as [company|] eqn:Hcompany.
    + rewrite (generate_run _ _ _ _ _ _ Hjob Hcompany). cbv zeta.
      assert (Hnew : forall d, keys_below_counter (described db id d)).
      { intros d. apply rewrite_rows_keys; [intros; apply setattr_key | exact Hkeys]. }
      destruct (openai_create env _) as [e|stream]; [exact Hkeys|].
      destruct (collect stream) as [e|buf]; [exact Hkeys|].
      destruct (Json.loads buf) as [e|data]; [exact Hkeys|].
      destruct (py_get data _ _) as [e|d]; [exact Hkeys|].
      destruct (commit_error env) as [e|]; [exact Hkeys|].
      destruct (new_response id d (utcnow env)); apply Hnew.
    + unfold serve, generate_job_description. unfold bind at 1. unfold query_job.
      cbn [session]. unfold posting in Hjob. rewrite Hjob.
      unfold bind at 1. unfold related_company, company_for in *.
      destruct (JobPostingModel.company_id job) as [cid|].
      * unfold query_company. cbn [session]. unfold company_of in Hcompany.
        rewrite Hcompany. exact Hkeys.
      * exact Hkeys.
  - unfold serve, generate_job_description. unfold bind at 1. unfold query_job.
    cbn [session]. unfold posting in Hjob. rewrite Hjob. exact Hkeys.
Qed.

(** * Further properties of the handlers *)

(** ** What each handler does, case by case *)

Lemma create_run env db job :
  serve (create_job_posting env job) db =
    match company_of db (JobPostingCreate.company_id job) with
    | None => (inl (HTTPException 404 "Company not found"), quiet db db)
    | Some _ =>
        match commit_error env with
        | Some e => (inl e, quiet db (created db job))
        | None =>
            match posting (created db job) (next_id db) with
            | Some row => (inr row, quiet (created db job) (created db job))
            | None =>
                (inl (Error "InvalidRequestError" "Could not refresh instance"),
                 quiet (created db job) (created db job))
            end
        end
    end.
Proof.
  unfold serve, create_job_posting. unfold bind at 1. unfold query_company, company_of.
  cbn [session].
  destruct (find _ (companies db)); [|reflexivity].
  unfold bind at 1. unfold db_add.
  cbn [persisted session api_calls logged].
  fold (created db job).
  unfold bind, db_commit. destruct (commit_error env); [reflexivity|].
  unfold db_refresh, posting. cbn [persisted session api_calls logged].
  rewrite new_job_key. reflexivity.
Qed.

Lemma created_finds_new db job :
  keys_below_counter db ->
  posting (created db job) (next_id db)
    = Some (new_job (JobPostingCreate.model_dump job) (next_id db)).
Proof.
  intros Hkeys. unfold posting, created. cbn [job_postings].
  apply find_appended; [exact Hkeys | apply new_job_key].
Qed.

Lemma delete_run env db job_id :
  serve (delete_job_posting env job_id) db =
    match posting db job_id with
    | None => (inl (HTTPException 404 "Job posting not found"), quiet db db)
    | Some _ =>
        match commit_error env with
        | Some e => (inl e, quiet db (removed db job_id))
        | None =>
            (inr [("message", "Job posting deleted successfully")],
             quiet (removed db job_id) (removed db job_id))
        end
    end.
Proof.
  unfold serve, delete_job_posting. unfold bind at 1. unfold query_job.
  cbn [session]. destruct (posting db job_id) as [row|] eqn:Hrow;
    unfold posting in Hrow; rewrite Hrow; [|reflexivity].
  fold (posting db job_id) in Hrow. pose proof (posting_key _ _ _ Hrow) as Hkey.
  unfold bind, db_delete, with_session, db_commit.
  cbn [persisted session api_calls logged]. rewrite Hkey. fold (removed db job_id).
  destruct (commit_error env); reflexivity.
Qed.

Lemma update_absent_run env db job_id body :
  posting db job_id = None ->
  serve (update_job_posting env job_id body) db
    = (inl (HTTPException 404 "Job posting not found"), quiet db db).
Proof.
  intros Hrow. unfold serve, update_job_posting. unfold bind at 1. unfold query_job.
  cbn [session]. unfold posting in Hrow. now rewrite Hrow.
Qed.

Lemma generate_absent_run env db id request :
  posting db id = None ->
  serve (generate_job_description env id request) db
    = (inl (HTTPException 404 "Job posting not found"), quiet db db).
Proof.
  intros Hjob. unfold serve, generate_job_description. unfold bind at 1.
  unfold query_job. cbn [session]. unfold posting in Hjob. now rewrite Hjob.
Qed.

Lemma generate_orphan_run env db id request job :
  posting db id = Some job ->
  company_for db job = None ->
  serve (generate_job_description env id request) db
    = (inl (HTTPException 404 "Associated company not found"), quiet db db).
Proof.
  intros Hjob Hcompany. unfold serve, generate_job_description. unfold bind at 1.
  unfold query_job. cbn [session]. unfold posting in Hjob. rewrite Hjob.
  unfold bind at 1. unfold related_company, company_for in *.
  destruct (JobPostingModel.company_id job) as [cid|]; [|reflexivity].
  unfold query_company. cbn [session]. unfold company_of in Hcompany.
  now rewrite Hcompany.
Qed.

Lemma read_run db job_id :
  serve (read_job_posting job_id) db =
    match posting db job_id with
    | Some row => (inr row, quiet db db)
    | None => (inl (HTTPException 404 "Job posting not found"), quiet db db)
    end.
Proof.
  unfold serve, read_job_posting, bind, query_job, posting. cbn [session].
  now destruct (find _ (job_postings db)).
Qed.

Lemma find_kept_by_append {A : Type} (p : A -> bool) (rows more : list A) (x : A) :
  find p rows = Some x -> find p (rows ++ more) = Some x.
Proof.
  induction rows as [|y rows IH]; cbn; [discriminate|].
  destruct (p y); [trivial | exact IH].
Qed.

(** ** Round trips and repeated calls *)

(** X1. After a successful create, a get on the id the create returned
    gives back the very posting the create returned, and every posting that
    could be read before can still be read unchanged. *)
Theorem create_then_get_returns_created env db job company :
  company_of db (JobPostingCreate.company_id job) = Some company ->
  keys_below_counter db ->
  commit_error env = None ->
  let r := serve (create_job_posting env job) db in
  exists row,
    response r = inr row /\
    response (serve (read_job_posting (JobPostingModel.id row)) (database r)) = inr row /\
    (forall k old,
       posting db k = Some old ->
       response (serve (read_job_posting k) (database r)) = inr old).
Proof.
  intros Hcompany Hkeys Hcommit r.
  exists (new_job (JobPostingCreate.model_dump job) (next_id db)).
  subst r. rewrite create_run, Hcompany, Hcommit, (created_finds_new _ _ Hkeys).
  unfold response, database, quiet. cbn [fst snd persisted].
  rewrite new_job_key. split; [reflexivity|]. split.
  - now rewrite read_run, (created_finds_new _ _ Hkeys).
  - intros k old Hold. rewrite read_run.
    assert (posting (created db job) k = Some old) as ->; [|reflexivity].
    unfold posting, created. cbn [job_postings]. now apply find_kept_by_append.
Qed.

Lemma create_then_get_returns_created_witness :
  exists row,
    response (serve (create_job_posting calm dispatcher) acme_db) = inr row /\
    response (serve (read_job_posting (JobPostingModel.id row))
                (database (serve (create_job_posting calm dispatcher) acme_db)))
      = inr row.
Proof.
  destruct (create_then_get_returns_created calm acme_db dispatcher acme)
    as [row (Hcreated & Hread & _)].
  - reflexivity.
  - repeat constructor.
  - reflexivity.
  - exists row. split; assumption.
Defined.

(** ** Unknown ids and unresolvable companies *)

(** X2. An update of a job id that matches no posting fails with 404 "Job
    posting not found" whatever the body holds (the posting is looked up
    before the body's company), makes no call to the generation API and
    leaves the database as it was. *)
Theorem update_unknown_job_not_found env db job_id body :
  posting db job_id = None ->
  let r := serve (update_job_posting env job_id body) db in
  response r = inl (HTTPException 404 "Job posting not found") /\
  database r = db /\
  external_calls r = [].
Proof.
  intros Hrow r. subst r. rewrite (update_absent_run _ _ _ _ Hrow).
  repeat split.
Qed.

Lemma update_unknown_job_not_found_witness :
  let r := serve (update_job_posting calm 999 (company_body 2)) acme_db in
  response r = inl (HTTPException 404 "Job posting not found") /\
  database r = acme_db /\
  external_calls r = [].
Proof.
  apply (update_unknown_job_not_found calm acme_db 999 (company_body 2)).
  reflexivity.
Defined.

(** X3. A delete of a job id that matches no posting fails with 404 "Job
    posting not found", makes no call to the generation API and leaves the
    database as it was. *)
Theorem delete_unknown_job_not_found env db job_id :
  posting db job_id = None ->
  let r := serve (delete_job_posting env job_id) db in
  response r = inl (HTTPException 404 "Job posting not found") /\
  database r = db /\
  external_calls r = [].
Proof.
  intros Hrow r. subst r. rewrite delete_run, Hrow. repeat split.
Qed.

Lemma delete_unknown_job_not_found_witness :
  let r := serve (delete_job_posting calm 999) acme_db in
  response r = inl (HTTPException 404 "Job posting not found") /\
  database r = acme_db /\
  external_calls r = [].
Proof.
  apply (delete_unknown_job_not_found calm acme_db 999). reflexivity.
Defined.

Lemma update_checks_non_null_company_witness :
  let r := serve (update_job_posting calm 10 (company_body 2)) acme_db in
  response r = inl (HTTPException 404 "Company not found") /\ database r = acme_db.
Proof.
  apply (proj1 (update_checks_non_null_company calm acme_db 10 (company_body 2)
                  driver 2 eq_refl eq_refl)).
  reflexivity.
Defined.

(** X5. Generation for a posting whose company cannot be resolved (its
    [company_id] is null or names no stored company) fails with 404
    "Associated company not found"; no call to the generation API is made,
    nothing is logged and the database is left as it was. *)
Theorem generation_unresolved_company_makes_no_call env db id request job :
  posting db id = Some job ->
  company_for db job = None ->
  let r := serve (generate_job_description env id request) db in
  response r = inl (HTTPException 404 "Associated company not found") /\
  external_calls r = [] /\
  logged (snd r) = [] /\
  database r = db.
Proof.
  intros Hjob Hcompany r. subst r.
  rewrite (generate_orphan_run _ _ _ _ _ Hjob Hcompany). repeat split.
Qed.

Lemma generation_unresolved_company_makes_no_call_witness :
  let r := serve (generate_job_description scenario 10 tools_request) orphan_db in
  response r = inl (HTTPException 404 "Associated company not found") /\
  external_calls r = [] /\
  logged (snd r) = [] /\
  database r = orphan_db.
Proof.
  apply (generation_unresolved_company_makes_no_call scenario orphan_db 10
           tools_request orphan); reflexivity.
Defined.

(** ** Calls to the generation API *)

(** X6. Only the generation handler calls the generation API, and a
    generation request calls it at most once (there is no retry): either no
    call is made, or the posting and its company were found and the one
    call carries the prompt built from them. *)
Theorem only_generation_calls_the_api_once env db :
  (forall job, external_calls (serve (create_job_posting env job) db) = []) /\
  (forall skip limit, external_calls (serve (read_job_postings skip limit) db) = []) /\
  (forall job_id, external_calls (serve (read_job_posting job_id) db) = []) /\
  (forall job_id body, external_calls (serve (update_job_posting env job_id body) db) = []) /\
  (forall job_id, external_calls (serve (delete_job_posting env job_id) db) = []) /\
  (forall id request,
     let r := serve (generate_job_description env id request) db in
     external_calls r = [] \/
     exists job company,
       posting db id = Some job /\
       company_for db job = Some company /\
       external_calls r = [chat_request (build_prompt job company request)]).
Proof.
  repeat apply conj.
  - intros job. rewrite create_run.
    destruct (company_of db _); [|reflexivity].
    destruct (commit_error env); [reflexivity|].
    now destruct (posting (created db job) (next_id db)).
  - reflexivity.
  - intros job_id. rewrite read_run. now destruct (posting db job_id).
  - intros job_id body. destruct (posting db job_id) as [row|] eqn:Hrow.
    + rewrite (update_run _ _ _ _ _ Hrow). cbv zeta.
      destruct (field_value (JobPostingUpdate.company_id body)) as [cid|];
        [destruct (company_of db cid); [|reflexivity]|];
        now destruct (commit_error env).
    + now rewrite (update_absent_run _ _ _ _ Hrow).
  - intros job_id. rewrite delete_run.
    destruct (posting db job_id); [|reflexivity]. now destruct (commit_error env).
  - intros id request r. subst r.
    destruct (posting db id) as [job|] eqn:Hjob;
      [|left; now rewrite (generate_absent_run _ _ _ _ Hjob)].
    destruct (company_for db job) as [company|] eqn:Hcompany;
      [|left; now rewrite (generate_orphan_run _ _ _ _ _ Hjob Hcompany)].
    right. exists job, company. split; [reflexivity|]. split; [exact Hcompany|].
    rewrite (generate_run _ _ _ _ _ _ Hjob Hcompany). cbv zeta.
    destruct (openai_create env _) as [e|stream]; [reflexivity|].
    destruct (collect stream) as [e|buf]; [reflexivity|].
    destruct (Json.loads buf) as [e|data]; [reflexivity|].
    destruct (py_get data _ _) as [e|d]; [reflexivity|].
    destruct (commit_error env) as [e|]; [reflexivity|].
    now destruct (new_response id d (utcnow env)).
Qed.

(** ** Streams that cannot be used *)

Lemma collect_broken stream e :
  broken stream = Some e ->
  exists e', collect stream = inl e' /\
    (Forall (fun chunk => choices chunk <> []) (chunks stream) -> e' = e).
Proof.
  intros Hbroken. unfold collect.
  destruct (for_chunks (chunks stream) EmptyString) as [e'|buf] eqn:Hloop.
  - exists e'. split; [reflexivity|]. intros Hall.
    rewrite (for_chunks_appends _ _ Hall) in Hloop. discriminate.
  - rewrite Hbroken. now exists e.
Qed.

(** What a generation request answers when the step that raises [e] comes
    before the commit. *)
Lemma generate_fails_early env db id request job company e :
  posting db id = Some job ->
  company_for db job = Some company ->
  (openai_create env (chat_request (build_prompt job company request)) = inl e \/
   exists stream,
     openai_create env (chat_request (build_prompt job company request)) = inr stream /\
     (collect stream = inl e \/
      exists buf,
        collect stream = inr buf /\
        (Json.loads buf = inl e \/
         exists data,
           Json.loads buf = inr data /\
           py_get data "description" (PyStr EmptyString) = inl e))) ->
  serve (generate_job_description env id request) db
    = (inl (generation_failure e),
       closing db db (chat_request (build_prompt job company request)) (Some e)).
Proof.
  intros Hjob Hcompany Hstep.
  rewrite (generate_run _ _ _ _ _ _ Hjob Hcompany). cbv zeta.
  destruct Hstep as [-> | (stream & -> & [-> | (buf & -> & [-> | (data & -> & ->)])])];
    reflexivity.
Qed.

(** X7. A streamed chunk whose [choices] list is empty stops the
    generation at that chunk: the request answers 500 with the detail
    "Failed to generate job description: list index out of range", whatever
    was streamed before or after it, and the database is left as it was. *)
Theorem generation_chunk_without_choices_fails
  env db id request job company stream before chunk after :
  posting db id = Some job ->
  company_for db job = Some company ->
  openai_create env (chat_request (build_prompt job company request)) = inr stream ->
  chunks stream = (before ++ chunk :: after)%list ->
  Forall (fun c => choices c <> []) before ->
  choices chunk = [] ->
  let r := serve (generate_job_description env id request) db in
  response r =
    inl (HTTPException 500
           "Failed to generate job description: list index out of range") /\
  database r = db.
Proof.
  intros Hjob Hcompany Hcall Hchunks Hbefore Hnone r. subst r.
  rewrite (generate_fails_early env db id request job company
             (Error "IndexError" "list index out of range") Hjob Hcompany).
  - split; reflexivity.
  - right. exists stream. split; [exact Hcall|]. left.
    unfold collect. rewrite Hchunks.
    now rewrite (for_chunks_no_choices _ _ _ _ Hbefore Hnone).
Qed.

Lemma generation_chunk_without_choices_fails_witness :
  let r :=
    serve (generate_job_description
             (streaming [chunk_of "{"; bare_chunk; chunk_of "}"] None) 10 tools_request)
      acme_db in
  response r =
    inl (HTTPException 500
           "Failed to generate job description: list index out of range") /\
  database r = acme_db.
Proof.
  apply (generation_chunk_without_choices_fails
           (streaming [chunk_of "{"; bare_chunk; chunk_of "}"] None)
           acme_db 10 tools_request driver acme
           {| chunks := [chunk_of "{"; bare_chunk; chunk_of "}"]; broken := None |}
           [chunk_of "{"] bare_chunk [chunk_of "}"]); try reflexivity.
  repeat constructor. discriminate.
Defined.

(** X8. When the stream ends without having carried any fragment (an
    empty stream, or chunks without function-call arguments), the buffer is
    the empty text, which is not JSON: the request answers with the 500
    made from the decoder's error and the database is left as it was. *)
Theorem generation_without_fragments_fails env db id request job company stream :
  posting db id = Some job ->
  company_for db job = Some company ->
  openai_create env (chat_request (build_prompt job company request)) = inr stream ->
  Forall (fun c => choices c <> []) (chunks stream) ->
  broken stream = None ->
  fragments (chunks stream) = [] ->
  let r := serve (generate_job_description env id request) db in
  exists e,
    Json.loads EmptyString = inl e /\
    response r = inl (generation_failure e) /\
    database r = db.
Proof.
  intros Hjob Hcompany Hcall Hchoices Hend Hnone r. subst r.
  exists (Error "JSONDecodeError" "Expecting value"). split; [reflexivity|].
  rewrite (generate_fails_early env db id request job company
             (Error "JSONDecodeError" "Expecting value") Hjob Hcompany).
  - split; reflexivity.
  - right. exists stream. split; [exact Hcall|]. right. exists EmptyString.
    rewrite (collect_joins _ Hchoices Hend), Hnone. split; [reflexivity|].
    left. reflexivity.
Qed.

Lemma generation_without_fragments_fails_witness :
  let r :=
    serve (generate_job_description (streaming [role_chunk; role_chunk] None)
             10 tools_request) acme_db in
  exists e,
    Json.loads EmptyString = inl e /\
    response r = inl (generation_failure e) /\
    database r = acme_db.
Proof.
  apply (generation_without_fragments_fails (streaming [role_chunk; role_chunk] None)
           acme_db 10 tools_request driver acme
           {| chunks := [role_chunk; role_chunk]; broken := None |}); try reflexivity.
  repeat constructor; discriminate.
Defined.

(** X9. When the buffer parses as JSON but not as an object (a list, a
    string, a number, true, false or null), the lookup of the description
    raises: the request answers 500 with a detail that names the type of
    the value, and the database is left as it was. *)
Theorem generation_non_object_payload_fails
  env db id request job company stream full_description data :
  posting db id = Some job ->
  company_for db job = Some company ->
  openai_create env (chat_request (build_prompt job company request)) = inr stream ->
  collect stream = inr full_description ->
  Json.loads full_description = inr data ->
  (forall items, data <> PyDict items) ->
  let r := serve (generate_job_description env id request) db in
  response r =
    inl (HTTPException 500
           ("Failed to generate job description: '" ++ type_name data
              ++ "' object has no attribute 'get'")) /\
  database r = db.
Proof.
  intros Hjob Hcompany Hcall Hcollect Hjson Hshape r. subst r.
  rewrite (generate_fails_early env db id request job company
             (Error "AttributeError"
                ("'" ++ type_name data ++ "' object has no attribute 'get'"))
             Hjob Hcompany).
  - split; reflexivity.
  - right. exists stream. split; [exact Hcall|]. right. exists full_description.
    split; [exact Hcollect|]. right. exists data. split; [exact Hjson|].
    destruct data; try reflexivity. now destruct (Hshape items).
Qed.

Lemma generation_non_object_payload_fails_witness :
  let r :=
    serve (generate_job_description (streaming [chunk_of "["; chunk_of "]"] None)
             10 tools_request) acme_db in
  response r =
    inl (HTTPException 500
           "Failed to generate job description: 'list' object has no attribute 'get'") /\
  database r = acme_db.
Proof.
  apply (generation_non_object_payload_fails
           (streaming [chunk_of "["; chunk_of "]"] None)
           acme_db 10 tools_request driver acme
           {| chunks := [chunk_of "["; chunk_of "]"]; broken := None |}
           "[]" (PyList [])); try reflexivity.
  intros items H. discriminate H.
Defined.

(** X10. A stream that breaks never yields a description, however much of
    the payload it carried before breaking: the request answers 500 and the
    database is left as it was; when every chunk had a choice the detail
    carries the message of the error that broke the stream. *)
Theorem generation_broken_stream_stores_nothing
  env db id request job company stream e :
  posting db id = Some job ->
  company_for db job = Some company ->
  openai_create env (chat_request (build_prompt job company request)) = inr stream ->
  broken stream = Some e ->
  let r := serve (generate_job_description env id request) db in
  exists e',
    response r = inl (generation_failure e') /\
    database r = db /\
    (Forall (fun chunk => choices chunk <> []) (chunks stream) -> e' = e).
Proof.
  intros Hjob Hcompany Hcall Hbroken r. subst r.
  destruct (collect_broken _ _ Hbroken) as [e' [Hcollect Hsame]].
  exists e'.
  rewrite (generate_fails_early env db id request job company e' Hjob Hcompany).
  - repeat split. exact Hsame.
  - right. exists stream. split; [exact Hcall|]. now left.
Qed.

Lemma generation_broken_stream_stores_nothing_witness :
  let r :=
    serve (generate_job_description
             (streaming [chunk_of "{}"] (Some (Error "APIError" "stream interrupted")))
             10 tools_request) acme_db in
  exists e', response r = inl (generation_failure e') /\ database r = acme_db.
Proof.
  destruct (generation_broken_stream_stores_nothing
              (streaming [chunk_of "{}"] (Some (Error "APIError" "stream interrupted")))
              acme_db 10 tools_request driver acme
              {| chunks := [chunk_of "{}"];
                 broken := Some (Error "APIError" "stream interrupted") |}
              (Error "APIError" "stream interrupted")
              eq_refl eq_refl eq_refl eq_refl)
    as [e' (Hresponse & Hdb & _)].
  exists e'. split; assumption.
Defined.

(** ** Repeating an update *)

Lemma apply_body_twice body row :
  apply_body body (apply_body body row) = apply_body body row.
Proof. destruct body as [[|t] [|d] [|c]]; reflexivity. Qed.

Lemma updated_twice db job_id body :
  updated (updated db job_id body) job_id body = updated db job_id body.
Proof.
  unfold updated. cbn [companies job_postings next_id].
  rewrite rewrite_rows_compose by apply apply_body_key.
  now rewrite (rewrite_rows_ext _ _ (apply_body body)) by apply apply_body_twice.
Qed.

Lemma posting_updated db job_id body row :
  posting db job_id = Some row ->
  posting (updated db job_id body) job_id = Some (apply_body body row).
Proof.
  intros Hrow. unfold posting, updated. cbn [job_postings].
  rewrite find_rewrite_same by apply apply_body_key.
  unfold posting in Hrow. now rewrite Hrow.
Qed.

(** A successful update, read backwards. *)
Lemma update_success_inv env db job_id body out :
  response (serve (update_job_posting env job_id body) db) = inr out ->
  exists row,
    posting db job_id = Some row /\
    out = apply_body body row /\
    database (serve (update_job_posting env job_id body) db) = updated db job_id body /\
    (forall cid, field_value (JobPostingUpdate.company_id body) = Some cid ->
       company_of db cid <> None) /\
    commit_error env = None.
Proof.
  destruct (posting db job_id) as [row|] eqn:Hrow.
  - rewrite (update_run _ _ _ _ _ Hrow). cbv zeta. intros Hout. exists row.
    destruct (field_value (JobPostingUpdate.company_id body)) as [cid|] eqn:Hfield.
    + destruct (company_of db cid) eqn:Hc; [|discriminate Hout].
      destruct (commit_error env); [discriminate Hout|].
      injection Hout as <-. repeat split. intros cid' [= <-]. congruence.
    + destruct (commit_error env); [discriminate Hout|].
      injection Hout as <-. repeat split. intros cid' [=].
  - rewrite (update_absent_run _ _ _ _ Hrow). discriminate.
Qed.

Lemma update_success env db job_id body row :
  posting db job_id = Some row ->
  (forall cid, field_value (JobPostingUpdate.company_id body) = Some cid ->
     company_of db cid <> None) ->
  commit_error env = None ->
  serve (update_job_posting env job_id body) db
    = (inr (apply_body body row),
       quiet (updated db job_id body) (updated db job_id body)).
Proof.
  intros Hrow Hcheck Hcommit. rewrite (update_run _ _ _ _ _ Hrow). cbv zeta.
  rewrite Hcommit.
  destruct (field_value (JobPostingUpdate.company_id body)) as [cid|]; [|reflexivity].
  specialize (Hcheck cid eq_refl).
  destruct (company_of db cid); [reflexivity | congruence].
Qed.

(** X11. Repeating a successful update changes nothing more: sent again
    on the database the first call left (the commit being accepted), the
    same body gets the same posting back and leaves that database as it
    is; a get on the id returns that posting too. *)
Theorem update_repeated_changes_nothing env env' db job_id body out :
  response (serve (update_job_posting env job_id body) db) = inr out ->
  commit_error env' = None ->
  let once := database (serve (update_job_posting env job_id body) db) in
  response (serve (update_job_posting env' job_id body) once) = inr out /\
  database (serve (update_job_posting env' job_id body) once) = once /\
  response (serve (read_job_posting job_id) once) = inr out.
Proof.
  intros Hout Hcommit once.
  destruct (update_success_inv _ _ _ _ _ Hout) as (row & Hrow & -> & Hdb & Hcheck & _).
  subst once. rewrite Hdb.
  pose proof (posting_updated db job_id body row Hrow) as Hstored.
  rewrite (update_success env' _ _ _ _ Hstored Hcheck Hcommit).
  rewrite read_run, Hstored.
  unfold response, database, quiet. cbn [fst snd persisted].
  now rewrite apply_body_twice, updated_twice.
Qed.

Lemma update_repeated_changes_nothing_witness :
  let body := title_body (Some "Senior driver") in
  let once := database (serve (update_job_posting calm 10 body) acme_db) in
  database (serve (update_job_posting calm 10 body) once) = once.
Proof.
  exact (proj1 (proj2
    (update_repeated_changes_nothing calm calm acme_db 10
       (title_body (Some "Senior driver"))
       {| JobPostingModel.id := 10;
          JobPostingModel.title := Some "Senior driver";
          JobPostingModel.description := PyNone;
          JobPostingModel.company_id := Some 1%Z |}
       eq_refl eq_refl))).
Defined.

(** ** What a request can do to the database *)

Lemma create_database_cases env db job :
  let r := serve (create_job_posting env job) db in
  database r = db \/
  (company_of db (JobPostingCreate.company_id job) <> None /\
   database r = created db job).
Proof.
  cbv zeta. rewrite create_run.
  destruct (company_of db _) eqn:Hc; [|now left].
  destruct (commit_error env); [now left|].
  right. split; [discriminate|].
  now destruct (posting (created db job) (next_id db)).
Qed.

Lemma update_database_cases env db job_id body :
  let r := serve (update_job_posting env job_id body) db in
  database r = db \/
  ((forall cid, field_value (JobPostingUpdate.company_id body) = Some cid ->
      company_of db cid <> None) /\
   database r = updated db job_id body).
Proof.
  cbv zeta. destruct (posting db job_id) as [row|] eqn:Hrow.
  - rewrite (update_run _ _ _ _ _ Hrow). cbv zeta.
    destruct (field_value (JobPostingUpdate.company_id body)) as [cid|].
    + destruct (company_of db cid) eqn:Hc; [|now left].
      destruct (commit_error env); [now left|].
      right. split; [|reflexivity]. intros cid' [= <-]. congruence.
    + destruct (commit_error env); [now left|].
      right. split; [|reflexivity]. intros cid' [=].
  - rewrite (update_absent_run _ _ _ _ Hrow). now left.
Qed.

Lemma delete_database_cases env db job_id :
  let r := serve (delete_job_posting env job_id) db in
  database r = db \/ database r = removed db job_id.
Proof.
  cbv zeta. rewrite delete_run. destruct (posting db job_id); [|now left].
  destruct (commit_error env); [now left | now right].
Qed.

Lemma generate_database_cases env db id request :
  let r := serve (generate_job_description env id request) db in
  database r = db \/ exists description, database r = described db id description.
Proof.
  cbv zeta. destruct (posting db id) as [job|] eqn:Hjob;
    [|left; now rewrite (generate_absent_run _ _ _ _ Hjob)].
  destruct (company_for db job) as [company|] eqn:Hcompany;
    [|left; now rewrite (generate_orphan_run _ _ _ _ _ Hjob Hcompany)].
  rewrite (generate_run _ _ _ _ _ _ Hjob Hcompany). cbv zeta.
  destruct (openai_create env _) as [e|stream]; [now left|].
  destruct (collect stream) as [e|buf]; [now left|].
  destruct (Json.loads buf) as [e|data]; [now left|].
  destruct (py_get data _ _) as [e|d]; [now left|].
  destruct (commit_error env) as [e|]; [now left|].
  right. exists d. now destruct (new_response id d (utcnow env)).
Qed.

Lemma rewrite_rows_same_keys k f rows :
  (forall j, JobPostingModel.id (f j) = JobPostingModel.id j) ->
  map JobPostingModel.id (rewrite_rows k f rows) = map JobPostingModel.id rows.
Proof.
  intros Hf. unfold rewrite_rows. rewrite map_map. apply map_ext. intros j.
  destruct (Z.eqb (JobPostingModel.id j) k); [apply Hf | reflexivity].
Qed.

Lemma keys_updated db job_id body : keys (updated db job_id body) = keys db.
Proof. apply rewrite_rows_same_keys, apply_body_key. Qed.

Lemma keys_described db id description : keys (described db id description) = keys db.
Proof. apply rewrite_rows_same_keys. intros; apply setattr_key. Qed.

Lemma nodup_keys_filter (p : JobPostingModel.t -> bool) rows :
  NoDup (map JobPostingModel.id rows) ->
  NoDup (map JobPostingModel.id (filter p rows)).
Proof.
  induction rows as [|j rows IH]; cbn; [trivial|].
  intros Hnd. apply NoDup_cons_iff in Hnd. destruct Hnd as [Hj Hnd].
  destruct (p j); cbn; [|now apply IH].
  constructor; [|now apply IH].
  intros Hin. apply Hj. apply in_map_iff in Hin. destruct Hin as [x [Hx Hin]].
  apply in_map_iff. exists x. split; [exact Hx|].
  apply filter_In in Hin. tauto.
Qed.

Lemma well_keyed_created db job : well_keyed db -> well_keyed (created db job).
Proof.
  intros [Hnd Hkeys]. split.
  - unfold keys, created. cbn [job_postings]. rewrite map_app. cbn [map].
    rewrite new_job_key. apply NoDup_app; [exact Hnd | repeat constructor; intros [] |].
    intros k Hin [<-|[]]. apply in_map_iff in Hin. destruct Hin as [j [Hj Hin]].
    unfold keys_below_counter in Hkeys. rewrite Forall_forall in Hkeys.
    specialize (Hkeys j Hin). lia.
  - unfold keys_below_counter, created. cbn [job_postings next_id].
    apply Forall_app. split.
    + apply (Forall_impl _ (P := fun j => (JobPostingModel.id j < next_id db)%Z));
        [intros j Hj; lia | exact Hkeys].
    + constructor; [rewrite new_job_key; lia | constructor].
Qed.

Lemma well_keyed_updated db job_id body : well_keyed db -> well_keyed (updated db job_id body).
Proof.
  intros [Hnd Hkeys]. split.
  - now rewrite keys_updated.
  - apply rewrite_rows_keys; [apply apply_body_key | exact Hkeys].
Qed.

Lemma well_keyed_described db id d : well_keyed db -> well_keyed (described db id d).
Proof.
  intros [Hnd Hkeys]. split.
  - now rewrite keys_described.
  - apply rewrite_rows_keys; [intros; apply setattr_key | exact Hkeys].
Qed.

Lemma well_keyed_removed db job_id : well_keyed db -> well_keyed (removed db job_id).
Proof.
  intros [Hnd Hkeys]. split.
  - now apply nodup_keys_filter.
  - unfold keys_below_counter, removed. cbn [job_postings next_id].
    apply Forall_forall. intros j Hj. apply filter_In in Hj. destruct Hj as [Hj _].
    revert j Hj. apply Forall_forall. exact Hkeys.
Qed.

(** X12. Primary keys stay primary keys: if no two stored postings share
    an id and the key counter is ahead of every stored id, the same holds
    of the database after any create, update, delete or generation
    request, whether the request succeeds or fails. *)
Theorem requests_keep_primary_keys env db :
  well_keyed db ->
  (forall job, well_keyed (database (serve (create_job_posting env job) db))) /\
  (forall job_id body,
     well_keyed (database (serve (update_job_posting env job_id body) db))) /\
  (forall job_id, well_keyed (database (serve (delete_job_posting env job_id) db))) /\
  (forall id request,
     well_keyed (database (serve (generate_job_description env id request) db))).
Proof.
  intros Hwk. repeat apply conj.
  - intros job. destruct (create_database_cases env db job) as [-> | [_ ->]];
      [exact Hwk | now apply well_keyed_created].
  - intros job_id body.
    destruct (update_database_cases env db job_id body) as [-> | [_ ->]];
      [exact Hwk | now apply well_keyed_updated].
  - intros job_id. destruct (delete_database_cases env db job_id) as [-> | ->];
      [exact Hwk | now apply well_keyed_removed].
  - intros id request.
    destruct (generate_database_cases env db id request) as [-> | [d ->]];
      [exact Hwk | now apply well_keyed_described].
Qed.

Lemma requests_keep_primary_keys_witness :
  well_keyed (database (serve (create_job_posting calm dispatcher) acme_db)).
Proof.
  refine (proj1 (requests_keep_primary_keys calm acme_db _) dispatcher).
  split; [repeat constructor; intros [] | repeat constructor].
Defined.

(** X13. No request touches the companies, and neither an update nor a
    generation request adds, removes or reorders postings: the list of
    stored ids after the request is the list before it. *)
Theorem requests_keep_companies_and_order env db :
  (forall job, companies (database (serve (create_job_posting env job) db)) = companies db) /\
  (forall job_id, companies (database (serve (delete_job_posting env job_id) db)) = companies db) /\
  (forall job_id body,
     let r := serve (update_job_posting env job_id body) db in
     companies (database r) = companies db /\ keys (database r) = keys db) /\
  (forall id request,
     let r := serve (generate_job_description env id request) db in
     companies (database r) = companies db /\ keys (database r) = keys db).
Proof.
  repeat apply conj.
  - intros job. now destruct (create_database_cases env db job) as [-> | [_ ->]].
  - intros job_id. now destruct (delete_database_cases env db job_id) as [-> | ->].
  - intros job_id body. cbv zeta.
    destruct (update_database_cases env db job_id body) as [-> | [_ ->]];
      [now split | split; [reflexivity | apply keys_updated]].
  - intros id request. cbv zeta.
    destruct (generate_database_cases env db id request) as [-> | [d ->]];
      [now split | split; [reflexivity | apply keys_described]].
Qed.

(** X14. When the database refuses the commit nothing is persisted: after
    a create, update, delete or generation request the database is the one
    before the request.  A create, an update or a delete that got as far as
    the commit lets the database's error through as it is (generation wraps
    it in its 500). *)
Theorem refused_commit_persists_nothing env db e :
  commit_error env = Some e ->
  (forall job,
     let r := serve (create_job_posting env job) db in
     database r = db /\
     (company_of db (JobPostingCreate.company_id job) <> None -> response r = inl e)) /\
  (forall job_id body,
     let r := serve (update_job_posting env job_id body) db in
     database r = db /\
     (posting db job_id <> None ->
      (forall cid, field_value (JobPostingUpdate.company_id body) = Some cid ->
         company_of db cid <> None) ->
      response r = inl e)) /\
  (forall job_id,
     let r := serve (delete_job_posting env job_id) db in
     database r = db /\ (posting db job_id <> None -> response r = inl e)) /\
  (forall id request,
     database (serve (generate_job_description env id request) db) = db).
Proof.
  intros Hcommit. repeat apply conj.
  - intros job. cbv zeta. rewrite create_run, Hcommit.
    destruct (company_of db _); split; try reflexivity; congruence.
  - intros job_id body. cbv zeta. destruct (posting db job_id) as [row|] eqn:Hrow.
    + rewrite (update_run _ _ _ _ _ Hrow). cbv zeta. rewrite Hcommit.
      destruct (field_value (JobPostingUpdate.company_id body)) as [cid|].
      * destruct (company_of db cid) eqn:Hc; split; try reflexivity.
        intros _ Hcheck. now destruct (Hcheck cid eq_refl).
      * split; reflexivity.
    + rewrite (update_absent_run _ _ _ _ Hrow). split; [reflexivity | congruence].
  - intros job_id. cbv zeta. rewrite delete_run, Hcommit.
    destruct (posting db job_id); split; try reflexivity; congruence.
  - intros id request.
    destruct (posting db id) as [job|] eqn:Hjob;
      [|now rewrite (generate_absent_run _ _ _ _ Hjob)].
    destruct (company_for db job) as [company|] eqn:Hcompany;
      [|now rewrite (generate_orphan_run _ _ _ _ _ Hjob Hcompany)].
    rewrite (generate_run _ _ _ _ _ _ Hjob Hcompany). cbv zeta. rewrite Hcommit.
    destruct (openai_create env _) as [e1|stream]; [reflexivity|].
    destruct (collect stream) as [e1|buf]; [reflexivity|].
    destruct (Json.loads buf) as [e1|data]; [reflexivity|].
    now destruct (py_get data _ _).
Qed.

Lemma refused_commit_persists_nothing_witness :
  let r := serve (delete_job_posting refusing 10) acme_db in
  database r = acme_db /\
  response r = inl (Error "OperationalError" "database is locked").
Proof.
  destruct (proj1 (proj2 (proj2
    (refused_commit_persists_nothing refusing acme_db
       (Error "OperationalError" "database is locked") eq_refl))) 10%Z)
    as [Hdb Hresponse].
  split; [exact Hdb | apply Hresponse; discriminate].
Defined.

(** ** Pages *)

Lemma firstn_plus {A : Type} (a b : nat) : forall rows : list A,
  firstn (a + b) rows = (firstn a rows ++ firstn b (skipn a rows))%list.
Proof.
  induction a as [|a IH]; intros rows; [reflexivity|].
  destruct rows as [|x rows]; cbn; [now rewrite firstn_nil | now rewrite IH].
Qed.

(** X15. Consecutive pages join up: for non-negative parameters, the page
    of [a] rows at offset [skip] followed by the page of [b] rows at offset
    [skip + a] is the page of [a + b] rows at offset [skip], so walking the
    list page by page neither repeats nor misses a posting. *)
Theorem list_consecutive_pages_join db skip a b :
  (0 <= skip)%Z -> (0 <= a)%Z -> (0 <= b)%Z ->
  exists first second,
    response (serve (read_job_postings (Some skip) (Some a)) db) = inr first /\
    response (serve (read_job_postings (Some (skip + a)%Z) (Some b)) db) = inr second /\
    response (serve (read_job_postings (Some skip) (Some (a + b)%Z)) db)
      = inr (first ++ second)%list.
Proof.
  intros Hskip Ha Hb.
  exists (page db skip a), (page db (skip + a) b).
  split; [reflexivity|]. split; [reflexivity|].
  unfold serve, read_job_postings, bind, query_jobs, ret, response, page.
  cbn [session fst].
  rewrite !Z2Nat.inj_add by lia. rewrite firstn_plus, skipn_skipn.
  now rewrite (Nat.add_comm (Z.to_nat a)).
Qed.

Lemma list_consecutive_pages_join_witness :
  response (serve (read_job_postings (Some 1%Z) (Some 4%Z)) five_db)
  = inr ([numbered 2; numbered 3] ++ [numbered 4; numbered 5])%list.
Proof.
  destruct (list_consecutive_pages_join five_db 1 2 2) as (first & second & H1 & H2 & H);
    try lia.
  injection H1 as <-. injection H2 as <-. exact H.
Defined.

(** ** Postings and their companies *)

Lemma company_for_same_companies db db' j :
  companies db' = companies db -> company_for db' j = company_for db j.
Proof. intros H. unfold company_for, company_of. now rewrite H. Qed.

Lemma referential_created db job :
  company_of db (JobPostingCreate.company_id job) <> None ->
  referential db -> referential (created db job).
Proof.
  intros Hcompany Href. unfold referential, created. cbn [job_postings].
  apply Forall_app. split.
  - apply (Forall_impl _ (P := fun j => company_for db j <> None)); [|exact Href].
    intros j Hj. now rewrite (company_for_same_companies db _ j).
  - constructor; [|constructor].
    rewrite (company_for_same_companies db _ _) by reflexivity. exact Hcompany.
Qed.

Lemma referential_updated db job_id body :
  (forall cid, field_value (JobPostingUpdate.company_id body) = Some cid ->
     company_of db cid <> None) ->
  JobPostingUpdate.company_id body <> Provided None ->
  referential db -> referential (updated db job_id body).
Proof.
  intros Hcheck Hnull Href. unfold referential, updated, rewrite_rows.
  cbn [job_postings]. apply Forall_map.
  apply (Forall_impl _ (P := fun j => company_for db j <> None)); [|exact Href].
  intros j Hj. rewrite (company_for_same_companies db _ _) by reflexivity.
  destruct (Z.eqb (JobPostingModel.id j) job_id); [|exact Hj].
  unfold company_for, apply_body. cbn [JobPostingModel.company_id].
  destruct (JobPostingUpdate.company_id body) as [|[cid|]].
  - exact Hj.
  - now apply Hcheck.
  - congruence.
Qed.

Lemma referential_removed db job_id : referential db -> referential (removed db job_id).
Proof.
  intros Href. unfold referential, removed. cbn [job_postings].
  apply Forall_forall. intros j Hj. apply filter_In in Hj. destruct Hj as [Hj _].
  rewrite (company_for_same_companies db _ _) by reflexivity.
  revert j Hj. apply Forall_forall. exact Href.
Qed.

Lemma referential_described db id d : referential db -> referential (described db id d).
Proof.
  intros Href. unfold referential, described, rewrite_rows. cbn [job_postings].
  apply Forall_map.
  apply (Forall_impl _ (P := fun j => company_for db j <> None)); [|exact Href].
  intros j Hj. rewrite (company_for_same_companies db _ _) by reflexivity.
  now destruct (Z.eqb (JobPostingModel.id j) id).
Qed.

(** X16. If every stored posting's [company_id] names a stored company,
    the same holds after any create, delete or generation request, and
    after any update whose body does not set [company_id] to null, whether
    the request succeeds or fails. *)
Theorem requests_keep_postings_attached env db :
  referential db ->
  (forall job, referential (database (serve (create_job_posting env job) db))) /\
  (forall job_id, referential (database (serve (delete_job_posting env job_id) db))) /\
  (forall id request,
     referential (database (serve (generate_job_description env id request) db))) /\
  (forall job_id body,
     JobPostingUpdate.company_id body <> Provided None ->
     referential (database (serve (update_job_posting env job_id body) db))).
Proof.
  intros Href. repeat apply conj.
  - intros job. destruct (create_database_cases env db job) as [-> | [Hc ->]];
      [exact Href | now apply referential_created].
  - intros job_id. destruct (delete_database_cases env db job_id) as [-> | ->];
      [exact Href | now apply referential_removed].
  - intros id request.
    destruct (generate_database_cases env db id request) as [-> | [d ->]];
      [exact Href | now apply referential_described].
  - intros job_id body Hnull.
    destruct (update_database_cases env db job_id body) as [-> | [Hcheck ->]];
      [exact Href | now apply referential_updated].
Qed.

Lemma requests_keep_postings_attached_witness :
  referential (database (serve (update_job_posting calm 10 (company_body 1)) acme_db)).
Proof.
  refine (proj2 (proj2 (proj2 (requests_keep_postings_attached calm acme_db _)))
            10%Z (company_body 1) _).
  - repeat constructor. discriminate.
  - discriminate.
Defined.

(** ** The failures of a generation request *)

(** X17. A generation request fails in one of three ways only: 404 "Job
    posting not found", 404 "Associated company not found", or the 500 made
    from the error of a step.  Each 500 is logged as exactly one line that
    carries the error's message; a 404 and a success log nothing. *)
Theorem generation_failures_are_classified env db id request :
  let r := serve (generate_job_description env id request) db in
  (forall out, response r = inr out -> logged (snd r) = []) /\
  (forall failure, response r = inl failure ->
     (failure = HTTPException 404 "Job posting not found" /\ logged (snd r) = []) \/
     (failure = HTTPException 404 "Associated company not found" /\ logged (snd r) = []) \/
     (exists e, failure = generation_failure e /\ logged (snd r) = [error_line e])).
Proof.
  cbv zeta.
  destruct (posting db id) as [job|] eqn:Hjob.
  2:{ rewrite (generate_absent_run _ _ _ _ Hjob). split.
      - discriminate.
      - intros failure [= <-]. left. now split. }
  destruct (company_for db job) as [company|] eqn:Hcompany.
  2:{ rewrite (generate_orphan_run _ _ _ _ _ Hjob Hcompany). split.
      - discriminate.
      - intros failure [= <-]. right. left. now split. }
  rewrite (generate_run _ _ _ _ _ _ Hjob Hcompany). cbv zeta.
  assert (Hfailed : forall e p s,
            let r := (inl (generation_failure e),
                      closing p s (chat_request (build_prompt job company request)) (Some e))
                     : (exn + JobDescriptionResponse.t) * World in
            (forall out, response r = inr out -> logged (snd r) = []) /\
            (forall failure, response r = inl failure ->
               (failure = HTTPException 404 "Job posting not found" /\ logged (snd r) = []) \/
               (failure = HTTPException 404 "Associated company not found"
                /\ logged (snd r) = []) \/
               (exists e', failure = generation_failure e' /\ logged (snd r) = [error_line e']))).
  { intros e p s. cbv zeta. split; [discriminate|].
    intros failure [= <-]. right. right. exists e. now split. }
  destruct (openai_create env _) as [e|stream]; [apply Hfailed|].
  destruct (collect stream) as [e|buf]; [apply Hfailed|].
  destruct (Json.loads buf) as [e|data]; [apply Hfailed|].
  destruct (py_get data _ _) as [e|d]; [apply Hfailed|].
  destruct (commit_error env) as [e|]; [apply Hfailed|].
  destruct (new_response id d (utcnow env)) as [e|out]; [apply Hfailed|].
  split; [reflexivity | discriminate].
Qed.

Lemma generation_failures_are_classified_witness :
  logged (snd (serve (generate_job_description offline 10 tools_request) acme_db))
  = ["Error generating job description: Connection error."].
Proof.
  destruct (proj2 (generation_failures_are_classified offline acme_db 10 tools_request)
              (generation_failure (Error "APIConnectionError" "Connection error."))
              eq_refl)
    as [[H _] | [[H _] | [e [He Hlog]]]]; try discriminate H.
  unfold generation_failure in He. cbn in He. injection He as Hmsg.
  rewrite Hlog. unfold error_line. now rewrite <- Hmsg.
Defined.

(** ** How the payload is cut into chunks *)

Lemma add_chunk_without_fragment acc chunk :
  choices chunk <> [] ->
  fragment chunk = None \/ fragment chunk = Some EmptyString ->
  add_chunk acc chunk = inr acc.
Proof.
  intros Hchoices Hnone. rewrite (add_chunk_fragment _ _ Hchoices).
  destruct Hnone as [-> | ->]; [reflexivity | now rewrite append_empty_r].
Qed.

(** X18. A chunk that has a choice but carries no fragment (no function
    call, no arguments, or empty arguments) does not count: the stream with
    that chunk collects to what the stream without it collects to, be it a
    buffer or an error. *)
Theorem collect_ignores_chunks_without_fragment before chunk after failure :
  choices chunk <> [] ->
  fragment chunk = None \/ fragment chunk = Some EmptyString ->
  collect {| chunks := (before ++ chunk :: after)%list; broken := failure |}
  = collect {| chunks := (before ++ after)%list; broken := failure |}.
Proof.
  intros Hchoices Hnone. unfold collect. cbn [chunks broken].
  assert (Hloop : forall acc,
            for_chunks (before ++ chunk :: after) acc = for_chunks (before ++ after) acc).
  { induction before as [|c before IH]; intros acc; cbn [app for_chunks].
    - now rewrite (add_chunk_without_fragment _ _ Hchoices Hnone).
    - destruct (add_chunk acc c); [reflexivity | apply IH]. }
  now rewrite Hloop.
Qed.

Lemma collect_ignores_chunks_without_fragment_witness :
  collect {| chunks := [chunk_of "{"; role_chunk; chunk_of "}"]; broken := None |}
  = collect {| chunks := [chunk_of "{"; chunk_of "}"]; broken := None |}.
Proof.
  apply (collect_ignores_chunks_without_fragment [chunk_of "{"] role_chunk [chunk_of "}"] None).
  - discriminate.
  - left. reflexivity.
Defined.

(** X19. Only the joined payload matters, not how it was cut: two
    generation requests for the same posting whose streams end normally,
    have a choice in every chunk and carry fragments that join to the same
    text end in the same response and the same database (the commit and the
    clock behaving alike). *)
Theorem generation_depends_on_joined_payload
  env1 env2 db id request job company stream1 stream2 :
  posting db id = Some job ->
  company_for db job = Some company ->
  openai_create env1 (chat_request (build_prompt job company request)) = inr stream1 ->
  openai_create env2 (chat_request (build_prompt job company request)) = inr stream2 ->
  Forall (fun chunk => choices chunk <> []) (chunks stream1) ->
  Forall (fun chunk => choices chunk <> []) (chunks stream2) ->
  broken stream1 = None ->
  broken stream2 = None ->
  join (fragments (chunks stream1)) = join (fragments (chunks stream2)) ->
  commit_error env1 = commit_error env2 ->
  utcnow env1 = utcnow env2 ->
  serve (generate_job_description env1 id request) db
  = serve (generate_job_description env2 id request) db.
Proof.
  intros Hjob Hcompany Hcall1 Hcall2 Hall1 Hall2 Hend1 Hend2 Hjoin Hcommit Hclock.
  rewrite !(generate_run _ _ _ _ _ _ Hjob Hcompany). cbv zeta.
  rewrite Hcall1, Hcall2, (collect_joins _ Hall1 Hend1), (collect_joins _ Hall2 Hend2).
  now rewrite Hjoin, Hcommit, Hclock.
Qed.

Lemma generation_depends_on_joined_payload_witness :
  serve (generate_job_description scenario 10 tools_request) acme_db
  = serve (generate_job_description
             (streaming
                [chunk_of ("{" ++ dq ++ "description" ++ dq ++ ": " ++ dq
                             ++ "Drives and navigates." ++ dq ++ "}")] None)
             10 tools_request) acme_db.
Proof.
  apply (generation_depends_on_joined_payload scenario
           (streaming
              [chunk_of ("{" ++ dq ++ "description" ++ dq ++ ": " ++ dq
                           ++ "Drives and navigates." ++ dq ++ "}")] None)
           acme_db 10 tools_request driver acme
           {| chunks :=
                [ role_chunk;
                  chunk_of ("{" ++ dq ++ "descr");
                  chunk_of ("iption" ++ dq ++ ": " ++ dq ++ "Drives and ");
                  chunk_of ("navigates." ++ dq ++ "}") ];
              broken := None |}
           {| chunks :=
                [chunk_of ("{" ++ dq ++ "description" ++ dq ++ ": " ++ dq
                             ++ "Drives and navigates." ++ dq ++ "}")];
              broken := None |});
    try reflexivity; repeat constructor; discriminate.
Defined.

(** ** Deleting under unique keys *)

Lemma filter_keeps_all {A : Type} (p : A -> bool) (rows : list A) :
  (forall x, In x rows -> p x = true) -> filter p rows = rows.
Proof.
  induction rows as [|x rows IH]; intros Hall; cbn; [reflexivity|].
  rewrite (Hall x (or_introl eq_refl)). f_equal. apply IH.
  intros y Hy. apply Hall. now right.
Qed.

Lemma find_splits {A : Type} (p : A -> bool) (rows : list A) (x : A) :
  find p rows = Some x ->
  exists before after,
    rows = (before ++ x :: after)%list /\ (forall y, In y before -> p y = false).
Proof.
  induction rows as [|y rows IH]; cbn; [discriminate|].
  destruct (p y) eqn:Hy.
  - intros [= ->]. exists [], rows. split; [reflexivity | intros z []].
  - intros Hfind. destruct (IH Hfind) as (before & after & -> & Hbefore).
    exists (y :: before), after. split; [reflexivity|].
    intros z [<- | Hz]; [exact Hy | now apply Hbefore].
Qed.

(** X20. When no two stored postings share an id, a successful delete
    takes exactly the one posting out of the stored sequence and keeps the
    others in their order. *)
Theorem delete_removes_one_posting env db job_id row :
  NoDup (keys db) ->
  posting db job_id = Some row ->
  commit_error env = None ->
  exists before after,
    job_postings db = (before ++ row :: after)%list /\
    job_postings (database (serve (delete_job_posting env job_id) db))
      = (before ++ after)%list.
Proof.
  intros Hnd Hrow Hcommit. pose proof (posting_key _ _ _ Hrow) as Hkey.
  unfold posting in Hrow.
  destruct (find_splits _ _ _ Hrow) as (before & after & Hrows & Hbefore).
  exists before, after. split; [exact Hrows|].
  rewrite delete_run. unfold posting. rewrite Hrow, Hcommit.
  unfold database, quiet, removed. cbn [snd persisted job_postings].
  unfold keys in Hnd. rewrite Hrows in Hnd |- *.
  rewrite map_app in Hnd. cbn [map] in Hnd.
  apply NoDup_remove_2 in Hnd.
  rewrite filter_app. cbn [filter]. rewrite Hkey, Z.eqb_refl. cbn [negb].
  rewrite !filter_keeps_all; [reflexivity | |].
  - intros y Hy. apply negb_true_iff, Z.eqb_neq. intros Heq. apply Hnd.
    apply in_or_app. right. rewrite Hkey, <- Heq. now apply in_map.
  - intros y Hy. now rewrite (Hbefore y Hy).
Qed.

Lemma delete_removes_one_posting_witness :
  exists before after,
    job_postings five_db = (before ++ numbered 3 :: after)%list /\
    job_postings (database (serve (delete_job_posting calm 3) five_db))
      = (before ++ after)%list.
Proof.
  apply (delete_removes_one_posting calm five_db 3 (numbered 3)).
  - repeat constructor; cbn; intuition discriminate.
  - reflexivity.
  - reflexivity.
Defined.
